(** * ThemeTracker: theme extraction, sentiment, titles and video classification

    A shallow embedding of the data-transformation code of the two Streamlit
    applications of the repository:

    - [ThemesTracker.py]: [RedditThemeAnalyzer.preprocess_text],
      [extract_themes], [analyze_sentiment], the per-subreddit loop of [main]
      and the nested [generate_titles];
    - [theme-tracker.py]: [generate_video_context] and the module-level
      "Combined (All Time Periods)" de-duplication of the second tab.

    Conventions of the embedding.
    - A Python [str] is a Rocq [string]; the character predicates and case
      conversions ([lower], [isalpha], [isspace], [title]) are the ASCII
      restrictions of Python's Unicode ones.
    - A [Counter] and a [dict] are association lists in insertion order,
      because [generate_titles] reads [list(d.keys())[:n]], which depends on
      that order. A Python [set] is a [gset].
    - A raised exception is a value of [result]; a [try]/[except Exception]
      block is a match on it.
    - Polarity scores are rationals; a float that may be NaN is a [pyfloat].
      Float rounding is not modelled, so nothing is stated of the exact
      value of a mean.
    - The NLTK tokenizer and lemmatizer and the TextBlob polarity are
      parameters of the sections that use them: they are libraries, not code
      of the repository. *)

From Stdlib Require Import Ascii String NArith QArith.
From stdpp Require Import base decidable option list strings pretty gmap.

Local Open Scope string_scope.
Local Open Scope list_scope.
Local Open Scope nat_scope.

(** ** Python exceptions *)

Record exn := Exn { exn_class : string; exn_message : string }.

Inductive result (A : Type) :=
| Ok (a : A)
| Raise (e : exn).
Arguments Ok {A} a.
Arguments Raise {A} e.

(** Sequencing stops at the first exception. *)
#[global] Instance result_ret : MRet result := fun A a => Ok a.
#[global] Instance result_bind : MBind result := fun A B k r =>
  match r with
  | Ok a => k a
  | Raise e => Raise e
  end.

(** What indexing a list past its end raises. *)
Definition IndexError : exn := Exn "IndexError" "list index out of range".

(** [l[i]] for a non-negative index [i]. *)
Definition getitem {A} (l : list A) (i : nat) : result A :=
  match l !! i with
  | Some a => Ok a
  | None => Raise IndexError
  end.

(** ** Python string operations (ASCII) *)

Module PyStr.

Definition code (c : ascii) : N := N_of_ascii c.

Definition is_upper (c : ascii) : bool := ((65 <=? code c) && (code c <=? 90))%N.
Definition is_lower (c : ascii) : bool := ((97 <=? code c) && (code c <=? 122))%N.
Definition is_alpha (c : ascii) : bool := is_upper c || is_lower c.

(** The ASCII characters for which [str.isspace] holds: tab to carriage
    return, the four separators 0x1c-0x1f and the space. *)
Definition is_space (c : ascii) : bool :=
  ((9 <=? code c) && (code c <=? 13) || (28 <=? code c) && (code c <=? 32))%N.

Definition lower_char (c : ascii) : ascii :=
  if is_upper c then ascii_of_N (code c + 32) else c.
Definition upper_char (c : ascii) : ascii :=
  if is_lower c then ascii_of_N (code c - 32) else c.

Fixpoint all_chars (P : ascii → bool) (s : string) : bool :=
  match s with
  | EmptyString => true
  | String c s' => P c && all_chars P s'
  end.

Fixpoint map_chars (f : ascii → ascii) (s : string) : string :=
  match s with
  | EmptyString => EmptyString
  | String c s' => String (f c) (map_chars f s')
  end.

(** [s.lower()], on 8-bit strings, where it keeps the length; Python's may
    lengthen a string that holds characters beyond these. *)
Definition lower (s : string) : string := map_chars lower_char s.

(** [s.isalpha()] and [s.isspace()]: false on the empty string. *)
Definition isalpha (s : string) : bool :=
  match s with EmptyString => false | _ => all_chars is_alpha s end.
Definition isspace (s : string) : bool :=
  match s with EmptyString => false | _ => all_chars is_space s end.

(** [s == s.lower()] *)
Definition is_lowercase (s : string) : bool := all_chars (fun c => negb (is_upper c)) s.

(** [s.title()]: a letter that follows a letter is lowered, any other
    letter is raised. [prev] tells whether the previous character was a
    letter. *)
Fixpoint title_from (prev : bool) (s : string) : string :=
  match s with
  | EmptyString => EmptyString
  | String c s' =>
      String (if prev then lower_char c else upper_char c) (title_from (is_alpha c) s')
  end.
Definition title (s : string) : string := title_from false s.

(** [s[:n]] *)
Definition upto (n : nat) (s : string) : string := substring 0 n s.

(** [p in s] *)
Fixpoint contains (p s : string) : bool :=
  match s with
  | EmptyString => String.prefix p EmptyString
  | String _ s' => String.prefix p s || contains p s'
  end.

(** The alternatives of a regular expression that is a [|]-separated list
    of literals, which is the only form the classifier uses. [cur] is the
    alternative being read, reversed. *)
Fixpoint alternatives_from (cur : string) (pat : string) : list string :=
  match pat with
  | EmptyString => [String.rev cur]
  | String c pat' =>
      if Ascii.eqb c "|" then String.rev cur :: alternatives_from EmptyString pat'
      else alternatives_from (String c cur) pat'
  end.
Definition alternatives (pat : string) : list string := alternatives_from EmptyString pat.

(** [re.search(pat, s)] as a truth value, for such a pattern. *)
Definition re_search (pat s : string) : bool :=
  existsb (fun p => contains p s) (alternatives pat).

End PyStr.

(** ** [theme-tracker.py]: the rule-based video classifier *)

Module VideoContext.
Import PyStr.

(** [generate_video_context(title, description)]. The text tested by every
    branch is [title.lower() + brief_desc.lower()], without a separator,
    where [brief_desc] carries a ["..."] suffix when the description was
    cut. *)
Definition brief_desc (description : string) : string :=
  if (200 <? String.length description)%nat then upto 200 description +:+ "..."
  else description.

Definition generate_video_context (title description : string) : string :=
  let brief_desc := brief_desc description in
  if re_search "meditation|mindfulness" (lower title +:+ lower brief_desc) then
    "Meditation/Mindfulness practice"
  else if re_search "buddhis|zen|tao" (lower title +:+ lower brief_desc) then
    "Eastern philosophy"
  else if re_search "christian|jesus|bible|faith" (lower title +:+ lower brief_desc) then
    "Christian spirituality"
  else if re_search "islam|muslim|quran" (lower title +:+ lower brief_desc) then
    "Islamic spirituality"
  else if re_search "judaism|jewish|torah" (lower title +:+ lower brief_desc) then
    "Jewish spirituality"
  else if re_search "hindu|vedanta|yoga" (lower title +:+ lower brief_desc) then
    "Hindu spirituality"
  else if re_search "consciousness|awareness" (lower title +:+ lower brief_desc) then
    "Consciousness exploration"
  else if re_search "psychedelic|plant medicine|ayahuasca|dmt" (lower title +:+ lower brief_desc) then
    "Psychedelic spirituality"
  else if re_search "near death|afterlife|heaven" (lower title +:+ lower brief_desc) then
    "Afterlife exploration"
  else if re_search "science|physics|quantum" (lower title +:+ lower brief_desc) then
    "Science and spirituality"
  else
    "General spiritual content".

(** The same rules as data, in the order of the [if]/[elif] chain: the
    ordered (pattern, label) list the specification speaks of. *)
Definition rules : list (string * string) :=
  [ ("meditation|mindfulness", "Meditation/Mindfulness practice");
    ("buddhis|zen|tao", "Eastern philosophy");
    ("christian|jesus|bible|faith", "Christian spirituality");
    ("islam|muslim|quran", "Islamic spirituality");
    ("judaism|jewish|torah", "Jewish spirituality");
    ("hindu|vedanta|yoga", "Hindu spirituality");
    ("consciousness|awareness", "Consciousness exploration");
    ("psychedelic|plant medicine|ayahuasca|dmt", "Psychedelic spirituality");
    ("near death|afterlife|heaven", "Afterlife exploration");
    ("science|physics|quantum", "Science and spirituality") ].

(** The text the specification classifies: the lowercased title followed
    by the lowercased prefix of at most 200 characters of the description. *)
Definition classified_text (title description : string) : string :=
  lower title +:+ lower (upto 200 description).

(** First match in list order, with a label for the case of no match. *)
Fixpoint first_match (rs : list (string * string)) (default text : string) : string :=
  match rs with
  | [] => default
  | (pat, label) :: rs' =>
      if re_search pat text then label else first_match rs' default text
  end.

End VideoContext.

(** ** Python containers used by [ThemesTracker.py] *)

Module PyDict.

Section Dict.
Context {K V : Type} `{EqDecision K}.

(** A [dict] in insertion order. *)
Definition keys (d : list (K * V)) : list K := d.*1.
Definition values (d : list (K * V)) : list V := d.*2.

(** [d.get(k)] *)
Fixpoint get (d : list (K * V)) (k : K) : option V :=
  match d with
  | [] => None
  | (k', v) :: d' => if decide (k = k') then Some v else get d' k
  end.

(** [d[k] = v]: an existing key keeps its position. *)
Fixpoint set (d : list (K * V)) (k : K) (v : V) : list (K * V) :=
  match d with
  | [] => [(k, v)]
  | (k', v') :: d' =>
      if decide (k = k') then (k', v) :: d' else (k', v') :: set d' k v
  end.
End Dict.

Section Counter.
Context {K : Type} `{EqDecision K}.

(** [c[k]] of a [Counter]: 0 for a missing key. *)
Definition count (c : list (K * nat)) (k : K) : nat := default 0 (get c k).

(** [c[k] += 1] *)
Definition incr (c : list (K * nat)) (k : K) : list (K * nat) :=
  set c k (S (count c k)).

(** [Counter(iterable)]: the elements are counted from left to right, so
    the keys stand in order of first occurrence. *)
Definition Counter (l : list K) : list (K * nat) := foldl incr [] l.
End Counter.

End PyDict.

(** [nltk.bigrams(tokens)]: the pairs of consecutive elements. *)
Definition bigrams {A} (tokens : list A) : list (A * A) := zip tokens (tail tokens).

(** ** Floats that may be NaN *)

Inductive pyfloat :=
| NaN
| Float (q : Q).

Definition pyfloat_add (a b : pyfloat) : pyfloat :=
  match a, b with
  | Float x, Float y => Float (x + y)
  | _, _ => NaN
  end.

(** [pandas.Series.mean()]: NaN for an empty series. The library sums and
    divides in float64 and rounds; here the mean is the exact rational one.
    It is used only for what rounding cannot change: that the mean of an
    empty series is NaN, that the mean of zeros is zero, and that a mean of
    scores between -1 and 1 lies between -1 and 1. *)
Definition Qsum (l : list Q) : Q := foldr Qplus 0%Q l.
Definition series_mean (s : list Q) : pyfloat :=
  match s with
  | [] => NaN
  | _ => Float (Qsum s / inject_Z (Z.of_nat (length s)))
  end.

(** ** [ThemesTracker.py] *)

Module ThemesTracker.
Import PyStr PyDict.

(** A row of the frame built by [fetch_subreddit_posts]. [text] is [None]
    where the frame holds a missing value, which [fillna('')] replaces. *)
Record post := Post {
  title : string;
  text : option string;
  score : Z;
  comments : Z;
  url : string
}.

(** The frame: its rows, and the [full_text] column once [extract_themes]
    has added it. A frame built from no rows has no columns at all. *)
Record dataframe := DataFrame {
  rows : list post;
  full_text : option (list string)
}.

Definition KeyError (k : string) : exn := Exn "KeyError" k.

(** [df.empty], [len(df)], [df[col]] *)
Definition empty (df : dataframe) : bool := bool_decide (rows df = []).
Definition len (df : dataframe) : nat := length (rows df).
Definition column {A} (name : string) (f : post → A) (df : dataframe) : result (list A) :=
  match rows df with
  | [] => Raise (KeyError name)
  | ps => Ok (f <$> ps)
  end.
Definition column_full_text (df : dataframe) : result (list string) :=
  match full_text df with
  | Some c => Ok c
  | None => Raise (KeyError "full_text")
  end.

(** Values a text cell can hold, and [str(x)]. *)
Inductive pyobj :=
| PyStr (s : string)
| PyNone
| PyNaN
| PyBool (b : bool)
| PyInt (z : Z).

Definition str (x : pyobj) : string :=
  match x with
  | PyStr s => s
  | PyNone => "None"
  | PyNaN => "nan"
  | PyBool true => "True"
  | PyBool false => "False"
  | PyInt z => pretty z
  end.

Section Analyzer.
(** [nltk.tokenize.word_tokenize], [WordNetLemmatizer().lemmatize] and
    [set(stopwords.words('english'))]; the first two may raise. *)
Variable word_tokenize : string → result (list string).
Variable lemmatize : string → result string.
Variable stop_words : gset string.

(** The test of the list comprehension of [preprocess_text]. *)
Definition keep_token (token : string) : bool :=
  isalpha token && bool_decide (token ∉ stop_words) && (1 <? String.length token)%nat.

(** The body of the [try] of [preprocess_text]. *)
Definition preprocess_text_body (text : pyobj) : result (list string) :=
  let text := match text with PyStr s => s | _ => str text end in
  if bool_decide (text = EmptyString) || isspace text then Ok []
  else
    tokens ← word_tokenize (lower text);
    let tokens := filter (λ token, keep_token token = true) tokens in
    tokens ← mapM lemmatize tokens;
    Ok tokens.

(** [preprocess_text]: any exception gives the empty list. *)
Definition preprocess_text (text : pyobj) : list string :=
  match preprocess_text_body text with
  | Ok tokens => tokens
  | Raise _ => []
  end.

(** The counting part of [extract_themes], over the token list of each
    text: [all_tokens] is extended text after text, then counted. *)
Definition count_themes (token_lists : list (list string))
  : list (string * nat) * list ((string * string) * nat) :=
  let all_tokens := foldl (λ all_tokens tokens, all_tokens ++ tokens) [] token_lists in
  let word_freq := Counter all_tokens in
  let bigram_freq := Counter (bigrams all_tokens) in
  (word_freq, bigram_freq).

(** [extract_themes(df)]: the frame with its new column and the two
    counters; on any exception the frame as it is and two empty
    counters. *)
Definition extract_themes (df : dataframe)
  : dataframe * (list (string * nat) * list ((string * string) * nat)) :=
  let body :=
    titles ← column "title" title df;
    texts ← column "text" text df;
    let full := zip_with (λ t x, t +:+ " " +:+ default EmptyString x) titles texts in
    Ok (DataFrame (rows df) (Some full),
        count_themes ((λ text, preprocess_text (PyStr text)) <$> full)) in
  match body with
  | Ok r => r
  | Raise _ => (df, ([], []))
  end.

(** [TextBlob(s).sentiment.polarity], which may raise. *)
Variable polarity : string → result Q.

(** [analyze_sentiment(df)]: the [try] encloses the whole loop, and its
    handler returns a series of [len(df)] zeros. *)
Definition analyze_sentiment (df : dataframe) : list Q :=
  let body :=
    texts ← column_full_text df;
    mapM (λ text, polarity (str (PyStr text))) texts in
  match body with
  | Ok sentiments => sentiments
  | Raise _ => replicate (len df) 0%Q
  end.

(** One entry of [all_results]. *)
Record sub_results := SubResults {
  posts : dataframe;
  word_freq : list (string * nat);
  bigram_freq : list ((string * string) * nat);
  sentiment : pyfloat
}.

(** The analysis loop of [main] over the selected subreddits, given what
    [fetch_subreddit_posts] returned for each. *)
Definition analyze_subreddit (df : dataframe) : option sub_results :=
  if negb (empty df) then
    let '(df, (word_freq, bigram_freq)) := extract_themes df in
    let sentiment := analyze_sentiment df in
    Some (SubResults df word_freq bigram_freq (series_mean sentiment))
  else None.

Definition analyze_all (fetched : list (string * dataframe))
  : list (string * sub_results) :=
  foldl (λ all_results '(subreddit, df),
           match analyze_subreddit df with
           | Some r => set all_results subreddit r
           | None => all_results
           end) [] fetched.
End Analyzer.

(** The loop of [generate_titles] over [results_dict.values()]: the first
    five keys of each word counter and the first three keys of each bigram
    counter, in the order the counters hold them, appended source after
    source; the sentiments are summed. *)
Definition collect (results : list sub_results)
  : list string * list (string * string) * pyfloat :=
  foldl (λ '(all_words, all_bigrams, overall_sentiment) sub_results,
           let words := take 5 (keys (word_freq sub_results)) in
           let bigrams := take 3 (keys (bigram_freq sub_results)) in
           (all_words ++ words, all_bigrams ++ bigrams,
            pyfloat_add overall_sentiment (sentiment sub_results)))
        ([], [], Float 0) results.

Definition all_words (results_dict : list (string * sub_results)) : list string :=
  (collect (values results_dict)).1.1.
Definition all_bigrams (results_dict : list (string * sub_results))
  : list (string * string) :=
  (collect (values results_dict)).1.2.
Definition overall_sentiment (results_dict : list (string * sub_results)) : pyfloat :=
  (collect (values results_dict)).2.

(** The ten f-strings of [generate_titles], evaluated in order: the first
    index past the end of a list raises [IndexError]. *)
Definition titles (all_words : list string) (all_bigrams : list (string * string))
  : result (list string) :=
  t1 ← (w ← getitem all_words 0;
        Ok ("The Quest for Meaning: " +:+ PyStr.title w +:+ " as a Path to Purpose"));
  t2 ← (w ← getitem all_words 1; w' ← getitem all_words 2;
        Ok ("From " +:+ PyStr.title w +:+ " to " +:+ PyStr.title w'
            +:+ ": A Journey of Self-Discovery"));
  t3 ← (w ← getitem all_words 3;
        Ok ("Understanding " +:+ PyStr.title w +:+ ": The Key to Personal Growth"));
  t4 ← (b ← getitem all_bigrams 0; b' ← getitem all_bigrams 0;
        Ok ("The Art of " +:+ PyStr.title b.1 +:+ " " +:+ PyStr.title b'.2
            +:+ ": A Philosophical Perspective"));
  t5 ← (w ← getitem all_words 4;
        Ok ("Beyond " +:+ PyStr.title w +:+ ": Finding Authentic Purpose in Modern Life"));
  t6 ← (b ← getitem all_bigrams 1; b' ← getitem all_bigrams 1;
        Ok ("The " +:+ PyStr.title b.1 +:+ " " +:+ PyStr.title b'.2
            +:+ " Method: Transforming Self-Understanding"));
  t7 ← (w ← getitem all_words 0;
        Ok ("Existential Wisdom: " +:+ PyStr.title w +:+ " in the Age of Uncertainty"));
  t8 ← (w ← getitem all_words 2;
        Ok ("The Power of " +:+ PyStr.title w +:+ ": Navigating Life's Big Questions"));
  t9 ← (b ← getitem all_bigrams 2; b' ← getitem all_bigrams 2;
        Ok (PyStr.title b.1 +:+ " " +:+ PyStr.title b'.2
            +:+ ": A Blueprint for Personal Excellence"));
  t10 ← (w ← getitem all_words 1;
         Ok ("Mastering " +:+ PyStr.title w +:+ ": The Path to Authentic Living"));
  Ok [t1; t2; t3; t4; t5; t6; t7; t8; t9; t10].

(** [generate_titles(results_dict)] *)
Definition generate_titles (results_dict : list (string * sub_results))
  : result (list string) :=
  let '(all_words, all_bigrams, overall_sentiment) := collect (values results_dict) in
  titles all_words all_bigrams.

End ThemesTracker.

(** ** The term merging the specification describes

    Written from the specification's words, to be compared with [collect]:
    per source, the [k] terms of highest count, equal counts in
    lexicographic order of the term; the per-source lists concatenated in
    source order. *)

Module MergeSpec.

Section Ranking.
Context {K : Type} (term_leb : K → K → bool).

(** [x] ranks before [y]: a higher count, or the same count and a
    smaller term. *)
Definition ranks_before (x y : K * nat) : bool :=
  (y.2 <? x.2)%nat || ((x.2 =? y.2)%nat && term_leb x.1 y.1).

Fixpoint insert_ranked (x : K * nat) (l : list (K * nat)) : list (K * nat) :=
  match l with
  | [] => [x]
  | y :: l' => if ranks_before x y then x :: l else y :: insert_ranked x l'
  end.

Definition ranked (freq : list (K * nat)) : list (K * nat) :=
  foldr insert_ranked [] freq.

Definition top (k : nat) (freq : list (K * nat)) : list K :=
  take k (ranked freq).*1.
End Ranking.

Definition pair_leb (x y : string * string) : bool :=
  String.ltb x.1 y.1 || (String.eqb x.1 y.1 && String.leb x.2 y.2).

Definition merged_top_terms (k : nat) (sources : list ThemesTracker.sub_results)
  : list string :=
  mjoin ((λ s, top String.leb k (ThemesTracker.word_freq s)) <$> sources).

Definition merged_top_bigrams (j : nat) (sources : list ThemesTracker.sub_results)
  : list (string * string) :=
  mjoin ((λ s, top pair_leb j (ThemesTracker.bigram_freq s)) <$> sources).

End MergeSpec.

(** ** [theme-tracker.py]: combining the three mined periods

    The videos are Python dicts held by reference: the lists kept in the
    session state, [all_videos] and [selected_videos] all point to the same
    objects, and the tagging loops write into them. The store maps an
    object identity to the dict's current content. *)

Module Combined.

Record video := Video {
  title : string;
  channel : string;
  published_at : string;
  view_count : Z;
  like_count : Z;
  comment_count : Z;
  video_id : string;
  thumbnail : string;
  description : string;
  context : option string;
  source : option string
}.

(** [v['source'] = tag] *)
Definition set_source (tag : string) (v : video) : video :=
  Video (title v) (channel v) (published_at v) (view_count v) (like_count v)
        (comment_count v) (video_id v) (thumbnail v) (description v) (context v)
        (Some tag).

(** [for v in videos: v['source'] = tag] *)
Definition tag_all (tag : string) (videos : list nat) (store : gmap nat video)
  : gmap nat video :=
  foldl (λ store v, alter (set_source tag) v store) store videos.

(** [video['video_id']] of the object [v]. *)
Definition id_of (store : gmap nat video) (v : nat) : option string :=
  video_id <$> store !! v.

(** One turn of the de-duplication loop. A reference always points to an
    object; the last branch is there for totality only. *)
Definition dedup_step (store : gmap nat video)
    (state : list nat * gset string) (video : nat) : list nat * gset string :=
  let '(selected_videos, video_ids_seen) := state in
  match id_of store video with
  | Some id =>
      if decide (id ∉ video_ids_seen)
      then (selected_videos ++ [video], video_ids_seen ∪ {[id]})
      else (selected_videos, video_ids_seen)
  | None => (selected_videos, video_ids_seen)
  end.

(** The branch [data_source == "Combined (All Time Periods)"]: the selected
    videos and the store after the tagging loops. *)
Definition combined (weekly monthly biannual : list nat) (store : gmap nat video)
  : list nat * gmap nat video :=
  let store := tag_all "Last Week" weekly store in
  let store := tag_all "Last Month" monthly store in
  let store := tag_all "Last 6 Months" biannual store in
  let all_videos := weekly ++ monthly ++ biannual in
  let '(selected_videos, _) := foldl (dedup_step store) ([], ∅) all_videos in
  (selected_videos, store).

(** The ids of a list of objects. *)
Definition ids (store : gmap nat video) (videos : list nat) : list string :=
  omap (id_of store) videos.

(** The label of the first period, in the order weekly, monthly,
    biannual, that holds a video with this id. *)
Definition first_source (store : gmap nat video) (weekly monthly : list nat)
    (id : string) : string :=
  if decide (id ∈ ids store weekly) then "Last Week"
  else if decide (id ∈ ids store monthly) then "Last Month"
  else "Last 6 Months".

(** The videos of [videos] that are the first of their id, given the ids
    seen so far: what the loop selects, as a recursive function. *)
Fixpoint firsts (store : gmap nat video) (seen : gset string) (videos : list nat)
  : list nat :=
  match videos with
  | [] => []
  | v :: videos' =>
      match id_of store v with
      | Some id =>
          if decide (id ∉ seen) then v :: firsts store (seen ∪ {[id]}) videos'
          else firsts store seen videos'
      | None => firsts store seen videos'
      end
  end.

End Combined.

(** ** Notions used to state the properties *)

(** The pattern [p] holds no dot. *)
Definition no_dot (p : string) : Prop :=
  PyStr.all_chars (λ c, negb (Ascii.eqb c ".")) p = true.

(** The tokenizer gives lowercase tokens for a lowercase text. *)
Definition keeps_lowercase (word_tokenize : string → result (list string)) : Prop :=
  ∀ s tokens token,
    word_tokenize s = Ok tokens → token ∈ tokens →
    PyStr.is_lowercase s = true → PyStr.is_lowercase token = true.

(** How often [k] occurs in [l]. *)
Definition occurrences `{EqDecision K} (k : K) (l : list K) : nat :=
  length (filter (λ x, x = k) l).

(** How often [x] is immediately followed by [y] in [l]. *)
Fixpoint adjacent `{EqDecision A} (x y : A) (l : list A) : nat :=
  match l with
  | [] => 0
  | a :: l' =>
      match l' with
      | [] => 0
      | b :: _ => (if decide (a = x ∧ b = y) then 1 else 0) + adjacent x y l'
      end
  end.

(** ** Sample data for the concrete cases *)

Module Samples.
Import ThemesTracker.

(** Sample entries of [all_results]. *)
Definition sample_posts : dataframe :=
  DataFrame [Post "Purpose" (Some EmptyString) 10 2 "https://example.org/1"] (Some ["Purpose "]).

Definition one_word : sub_results :=
  SubResults sample_posts [("purpose", 1)] [] (Float 0).

Definition growth_purpose : sub_results :=
  SubResults sample_posts
    [("growth", 1); ("purpose", 2)]
    [(("growth", "purpose"), 1); (("purpose", "purpose"), 1)]
    (Float 0).

Definition five_words (sentiment : pyfloat) : sub_results :=
  SubResults sample_posts
    [("find", 1); ("purpose", 2); ("growth", 2); ("mindset", 1); ("life", 1)]
    [(("find", "purpose"), 1); (("purpose", "purpose"), 1); (("purpose", "growth"), 1)]
    sentiment.

(** A tokenizer that splits at white space, a lemmatizer that knows the
    plural "wills", a stopword set, and a polarity that fails on one
    text. *)
Fixpoint split_words (s : string) : list string :=
  match s with
  | EmptyString => [EmptyString]
  | String c s' =>
      if PyStr.is_space c then EmptyString :: split_words s'
      else match split_words s' with
           | w :: ws => String c w :: ws
           | [] => [String c EmptyString]
           end
  end.

Definition sample_tokenize (s : string) : result (list string) :=
  Ok (filter (λ w, w ≠ EmptyString) (split_words s)).

Definition sample_lemmatize (s : string) : result string :=
  Ok (if decide (s = "wills") then "will" else s).

Definition sample_stop_words : gset string := list_to_set ["the"; "and"; "will"].

Definition sample_polarity (s : string) : result Q :=
  if decide (s = "good day") then Ok 1%Q
  else if decide (s = "bad day") then Raise (Exn "ValueError" "cannot score")
  else Ok 0%Q.

Definition two_posts : dataframe :=
  DataFrame [Post "good" (Some "day") 3 1 "https://example.org/2";
             Post "bad" (Some "day") 2 0 "https://example.org/3"]
            (Some ["good day"; "bad day"]).

Definition no_posts : dataframe := DataFrame [] None.

(** Three video objects: two fetched copies of "v1" and one "v2". *)
Definition a_video (id : string) : Combined.video :=
  Combined.Video "A title" "A channel" "2025-01-01T00:00:00Z" 100 10 1 id
                 "https://example.org/thumb.jpg" "A description"
                 (Some "General spiritual content") None.

Definition three_videos : gmap nat Combined.video :=
  <[0 := a_video "v1"]> (<[1 := a_video "v1"]> (<[2 := a_video "v2"]> ∅)).

End Samples.

(** ** [sorted(..., key=..., reverse=True)] and [list.sort(key=..., reverse=True)]

    Descending by key; elements of equal key keep the order they came in. *)

Module PySort.

Section Sorted.
Context {A : Type} (key : A → Z).

Fixpoint insert_desc (x : A) (l : list A) : list A :=
  match l with
  | [] => [x]
  | y :: l' => if (key y <=? key x)%Z then x :: l else y :: insert_desc x l'
  end.

Definition sorted_desc (l : list A) : list A := foldr insert_desc [] l.
End Sorted.

End PySort.

(** ** [s[:n] + "..." if len(s) > n else s]

    The cut used for the description (200), the preview of the extracted
    text (500), the view of the loaded context (1000) and the context put
    in the prompt (10000). *)

Definition ellipsize (n : nat) (s : string) : string :=
  if (n <? String.length s)%nat then PyStr.upto n s +:+ "..." else s.

(** ** [ThemesTracker.py]: fetching, and what [main] displays *)

Module Main.
Import PyDict ThemesTracker PySort.

(** [fetch_subreddit_posts]. [top] is what iterating
    [subreddit.top(time_filter, limit)] gives: an exception, from the call
    or in the middle of the listing, or the submissions, each of which may
    fail when its fields are read. A failing submission is skipped by the
    inner handler; any other failure gives an empty frame. *)
Definition fetch_subreddit_posts (top : result (list (result post))) : dataframe :=
  match top with
  | Ok submissions =>
      let posts :=
        foldl (λ posts submission,
                 match submission with
                 | Ok p => posts ++ [p]
                 | Raise _ => posts
                 end) [] submissions in
      DataFrame posts None
  | Raise _ => DataFrame [] None
  end.

(** [dict(sorted(results['word_freq'].items(), key=lambda x: x[1],
    reverse=True)[:10])] and the same for five bigrams. *)
Definition by_count {K} (x : K * nat) : Z := Z.of_nat x.2.

Definition top_words (results : sub_results) : list (string * nat) :=
  take 10 (sorted_desc by_count (word_freq results)).

Definition top_bigrams (results : sub_results) : list ((string * string) * nat) :=
  take 5 (sorted_desc by_count (bigram_freq results)).

(** ['Positive' if results['sentiment'] > 0 else 'Negative']; a comparison
    with NaN is false. *)
Definition sentiment_label (sentiment : pyfloat) : string :=
  match sentiment with
  | Float q => if negb (Qle_bool q 0) then "Positive" else "Negative"
  | NaN => "Negative"
  end.

Section Run.
Variable word_tokenize : string → result (list string).
Variable lemmatize : string → result string.
Variable stop_words : gset string.
Variable polarity : string → result Q.
(** The listing of a subreddit for a time filter. *)
Variable top : string → string → result (list (result post)).

(** The body of [if st.button("Analyze Themes")]: the results of the
    selected subreddits, and the titles when there are results. An
    [IndexError] of [generate_titles] reaches the handler of [main]. *)
Definition all_results (subreddits : list string) (time_filter : string)
  : list (string * sub_results) :=
  analyze_all word_tokenize lemmatize stop_words polarity
    ((λ subreddit, (subreddit, fetch_subreddit_posts (top subreddit time_filter)))
       <$> subreddits).

Definition suggested_titles (subreddits : list string) (time_filter : string)
  : option (result (list string)) :=
  match all_results subreddits time_filter with
  | [] => None
  | results => Some (generate_titles results)
  end.
End Run.

End Main.

(** The tokens a [Counter] meets for the first time, in that order. *)
Fixpoint first_occurrences `{EqDecision K} (l : list K) : list K :=
  match l with
  | [] => []
  | x :: l' => x :: filter (λ y, y ≠ x) (first_occurrences l')
  end.

(** The analysis text of a post: [title + ' ' + text.fillna('')]. *)
Definition full_text_of (p : ThemesTracker.post) : string :=
  ThemesTracker.title p +:+ " " +:+ default EmptyString (ThemesTracker.text p).

(** A score between -1 and 1. *)
Definition is_polarity (q : Q) : Prop := (-1 <= q)%Q ∧ (q <= 1)%Q.

(** The labels [generate_video_context] can return. *)
Definition context_labels : list string :=
  VideoContext.rules.*2 ++ ["General spiritual content"].

(** ** [theme-tracker.py]: fetching, mining and the lecture themes *)

Module YouTube.
Import PyStr PySort Combined.

(** An item of the [videos().list] response. A key that is absent is
    [None], and reading it raises [KeyError]; [sn_thumbnail] stands for the
    path [thumbnails/high/url]. The statistics are a dict of strings. *)
Record snippet := Snippet {
  sn_title : option string;
  sn_channelTitle : option string;
  sn_publishedAt : option string;
  sn_thumbnail : option string;
  sn_description : option string
}.

Record item := Item {
  item_id : option string;
  item_snippet : option snippet;
  item_statistics : option (list (string * string))
}.

(** [d[name]] for a key that may be absent; [str] of a [KeyError] is the
    quoted key. *)
Definition field {A} (name : string) (x : option A) : result A :=
  match x with
  | Some a => Ok a
  | None => Raise (Exn "KeyError" ("'" +:+ name +:+ "'"))
  end.

Section Fetch.
(** Python's [int] on a string. *)
Variable int : string → result Z.

(** [int(item['statistics'].get(name, 0))] *)
Definition statistic (statistics : list (string * string)) (name : string) : result Z :=
  match PyDict.get statistics name with
  | Some s => int s
  | None => Ok 0%Z
  end.

(** The dict built for one item, its fields read in the order of the
    source. *)
Definition make_video (it : item) : result video :=
  sn ← field "snippet" (item_snippet it);
  title ← field "title" (sn_title sn);
  channel ← field "channelTitle" (sn_channelTitle sn);
  published_at ← field "publishedAt" (sn_publishedAt sn);
  statistics ← field "statistics" (item_statistics it);
  view_count ← statistic statistics "viewCount";
  like_count ← statistic statistics "likeCount";
  comment_count ← statistic statistics "commentCount";
  video_id ← field "id" (item_id it);
  thumbnail ← field "thumbnails" (sn_thumbnail sn);
  description ← field "description" (sn_description sn);
  Ok (Video title channel published_at view_count like_count comment_count
            video_id thumbnail description None None).

(** [get_popular_videos]. [search_response] is the answer to the search
    request, an exception or for each found item its [id.videoId] when
    present; [videos_list] answers the request for the details of the
    comma-separated ids. Any exception gives the empty list. *)
Definition get_popular_videos (search_response : result (list (option string)))
    (videos_list : string → result (list item)) : list video :=
  let body :=
    search_items ← search_response;
    video_ids ← mapM (field "videoId") search_items;
    items ← videos_list (String.concat "," video_ids);
    results ← mapM make_video items;
    Ok (sorted_desc view_count results) in
  match body with
  | Ok results => results
  | Raise _ => []
  end.
End Fetch.

(** [video['context'] = generate_video_context(video['title'],
    video['description'])] *)
Definition add_context (v : video) : video :=
  Video (title v) (channel v) (published_at v) (view_count v) (like_count v)
        (comment_count v) (video_id v) (thumbnail v) (description v)
        (Some (VideoContext.generate_video_context (title v) (description v)))
        (source v).

(** The three lists of the session state; a key not yet set is [None]. *)
Record session := Session {
  weekly_videos : option (list nat);
  monthly_videos : option (list nat);
  biannual_videos : option (list nat)
}.

Inductive period := Week | Month | HalfYear.

Definition set_period (p : period) (videos : list nat) (s : session) : session :=
  match p with
  | Week => Session (Some videos) (monthly_videos s) (biannual_videos s)
  | Month => Session (weekly_videos s) (Some videos) (biannual_videos s)
  | HalfYear => Session (weekly_videos s) (monthly_videos s) (Some videos)
  end.

(** The dicts that [get_popular_videos] builds are new objects. *)
Fixpoint alloc (videos : list video) (store : gmap nat video)
  : list nat * gmap nat video :=
  match videos with
  | [] => ([], store)
  | v :: videos' =>
      let r := fresh (dom store) in
      let '(refs, store') := alloc videos' (<[r := v]> store) in
      (r :: refs, store')
  end.

(** A mining button of the first tab, given what [get_popular_videos]
    returned: nothing is stored for an empty list; otherwise every video
    gets its context and the list replaces that of the period. *)
Definition mine (p : period) (videos : list video) (state : session * gmap nat video)
  : session * gmap nat video :=
  match videos with
  | [] => state
  | _ =>
      let '(refs, store) := alloc videos state.2 in
      let store := foldl (λ store v, alter add_context v store) store refs in
      (set_period p refs state.1, store)
  end.

(** The selection of the second tab: [st.session_state.get(key, [])] for a
    single period, the combination of the three for "Combined (All Time
    Periods)". *)
Definition select (data_source : string) (state : session * gmap nat video)
  : list nat * gmap nat video :=
  let '(s, store) := state in
  if decide (data_source = "Last Week") then (default [] (weekly_videos s), store)
  else if decide (data_source = "Last Month") then (default [] (monthly_videos s), store)
  else if decide (data_source = "Last 6 Months") then (default [] (biannual_videos s), store)
  else if decide (data_source = "Combined (All Time Periods)") then
    combined (default [] (weekly_videos s)) (default [] (monthly_videos s))
             (default [] (biannual_videos s)) store
  else ([], store).

(** What the user does, and the state after a run of the script for it. *)
Inductive event :=
| Mine (p : period) (videos : list video)
| Select (data_source : string).

Definition run_event (state : session * gmap nat video) (e : event)
  : session * gmap nat video :=
  match e with
  | Mine p videos => mine p videos state
  | Select data_source => (state.1, (select data_source state).2)
  end.

Definition run (events : list event) : session * gmap nat video :=
  foldl run_event (Session None None None, ∅) events.

(** *** [generate_lecture_themes] *)

Definition nl : string := String (ascii_of_nat 10) EmptyString.

Definition age_characteristics : list (string * string) :=
  [ ("20-30", "digital natives, social media focused, seeking authenticity, concerned about climate crisis, mental health aware");
    ("30-40", "career-focused, starting families, balancing work-life, health conscious, pragmatic spirituality");
    ("40-50", "mid-life reflection, established careers, parenting teens, seeking deeper meaning, stress management");
    ("50-60", "empty nest transitions, career peak or change, caring for aging parents, legacy considerations");
    ("60+", "retirement planning/living, health challenges, grandparenting, mortality awareness, wisdom sharing") ].

(** [f"- {video['title']} ({video['context']})"] *)
Definition title_line (v : video) : result string :=
  context ← field "context" (context v);
  Ok ("- " +:+ title v +:+ " (" +:+ context +:+ ")").

(** The context put in the prompt: empty when the session holds no
    cleaned text or an empty one, cut at 10000 characters otherwise. *)
Definition philosophy_context (cleaned : option string) : string :=
  match cleaned with
  | Some full_context =>
      if decide (full_context = EmptyString) then EmptyString
      else ellipsize (100 * 100) full_context
  | None => EmptyString
  end.

Definition prompt_with_context (titles_context philosophy_context age_group characteristics : string)
  : string :=
  String.concat nl
    [ EmptyString;
      "As a spiritual content creator for a philosophical school of thought, analyze these trending YouTube video titles related to spirituality:";
      EmptyString;
      titles_context;
      EmptyString;
      "The philosophical school has the following context, which should guide your suggestions:";
      "----";
      philosophy_context;
      "----";
      EmptyString;
      "Based on these trends and the philosophical context, suggest 5 compelling lecture themes that would resonate specifically with people aged " +:+ age_group +:+ " years. ";
      "Consider that this age group typically has these characteristics: " +:+ characteristics +:+ ".";
      EmptyString;
      "Make sure your suggested themes align with the philosophical approach described in the context.";
      EmptyString;
      "For each theme:";
      "1. Provide a catchy title that reflects both current trends and the philosophical approach";
      "2. Write a short description (2-3 sentences)";
      "3. Explain why this theme would resonate with this specific age group";
      "4. Briefly note how it connects to the philosophical context";
      EmptyString;
      "Format your response as a numbered list with the title in bold, followed by the description and reasoning.";
      EmptyString ].

Definition prompt_without_context (titles_context age_group characteristics : string)
  : string :=
  String.concat nl
    [ EmptyString;
      "As a spiritual content creator, analyze these trending YouTube video titles related to spirituality:";
      EmptyString;
      titles_context;
      EmptyString;
      "Based on these trends, suggest 5 compelling lecture themes that would resonate specifically with people aged " +:+ age_group +:+ " years. ";
      "Consider that this age group typically has these characteristics: " +:+ characteristics +:+ ".";
      EmptyString;
      "For each theme:";
      "1. Provide a catchy title";
      "2. Write a short description (2-3 sentences)";
      "3. Explain why this theme would resonate with this specific age group";
      EmptyString;
      "Format your response as a numbered list with the title in bold, followed by the description and reasoning.";
      EmptyString ].

Section Themes.
(** [genai.configure(api_key)] with the making of the model, and
    [model.generate_content(prompt).text]; both may raise. *)
Variable configure : string → result unit.
Variable generate_content : string → result string.

Definition generate_lecture_themes (cleaned : option string) (api_key : string)
    (video_data : list video) (age_group : string) : string :=
  let body :=
    _ ← configure api_key;
    lines ← mapM title_line video_data;
    let titles_context := String.concat nl lines in
    let characteristics := default EmptyString (PyDict.get age_characteristics age_group) in
    let philosophy_context := philosophy_context cleaned in
    let prompt :=
      if decide (philosophy_context = EmptyString)
      then prompt_without_context titles_context age_group characteristics
      else prompt_with_context titles_context philosophy_context age_group characteristics in
    generate_content prompt in
  match body with
  | Ok text => text
  | Raise e => "Error generating lecture themes: " +:+ exn_message e
  end.
End Themes.

End YouTube.

(** The state of the session is sound: the three lists hold live objects,
    share none, and every listed video carries the label of its own title
    and description. *)
Definition listed (s : YouTube.session) : list nat :=
  default [] (YouTube.weekly_videos s) ++ default [] (YouTube.monthly_videos s)
  ++ default [] (YouTube.biannual_videos s).

Definition session_sound (state : YouTube.session * gmap nat Combined.video) : Prop :=
  NoDup (listed state.1)
  ∧ ∀ v, v ∈ listed state.1 →
      ∃ d, state.2 !! v = Some d
           ∧ Combined.context d
             = Some (VideoContext.generate_video_context (Combined.title d)
                       (Combined.description d)).

(** The list of a period, and the lists of the two other periods. *)
Definition period_list (p : YouTube.period) (s : YouTube.session) : list nat :=
  default [] match p with
             | YouTube.Week => YouTube.weekly_videos s
             | YouTube.Month => YouTube.monthly_videos s
             | YouTube.HalfYear => YouTube.biannual_videos s
             end.

Definition other_lists (p : YouTube.period) (s : YouTube.session) : list nat :=
  match p with
  | YouTube.Week => default [] (YouTube.monthly_videos s) ++ default [] (YouTube.biannual_videos s)
  | YouTube.Month => default [] (YouTube.weekly_videos s) ++ default [] (YouTube.biannual_videos s)
  | YouTube.HalfYear => default [] (YouTube.weekly_videos s) ++ default [] (YouTube.monthly_videos s)
  end.

(** ** More sample data *)

Module MoreSamples.
Import ThemesTracker Samples.

Definition fetched_posts : dataframe := DataFrame (rows two_posts) None.

(** A lemmatizer that fails on one word. *)
Definition failing_lemmatize (s : string) : result string :=
  if decide (s = "growth") then Raise (Exn "LookupError" "wordnet not found") else Ok s.

(** Listings: one with a submission that cannot be read, one that fails. *)
Definition sample_top (subreddit time_filter : string) : result (list (result post)) :=
  if decide (subreddit = "Existentialism") then
    Ok [Ok (Post "good" (Some "day") 3 1 "https://example.org/2");
        Raise (Exn "AttributeError" "selftext");
        Ok (Post "bad" (Some "day") 2 0 "https://example.org/3")]
  else Raise (Exn "ResponseException" "received 401 HTTP response").

Definition many_words : sub_results :=
  SubResults sample_posts
    [("find", 1); ("purpose", 3); ("growth", 2); ("mindset", 1); ("life", 3);
     ("mind", 2); ("self", 1); ("work", 1); ("time", 4); ("day", 1); ("year", 2);
     ("people", 5)]
    [(("find", "purpose"), 1); (("purpose", "growth"), 2); (("growth", "mindset"), 1)]
    (Float 0).

(** Python's [int] on the strings of the samples. *)
Definition sample_int (s : string) : result Z :=
  if decide (s = "1200") then Ok 1200%Z
  else if decide (s = "75") then Ok 75%Z
  else if decide (s = "3") then Ok 3%Z
  else Raise (Exn "ValueError" "invalid literal for int() with base 10").

Definition an_item (id title views : string) : YouTube.item :=
  YouTube.Item (Some id)
    (Some (YouTube.Snippet (Some title) (Some "A channel") (Some "2025-01-01T00:00:00Z")
             (Some "https://example.org/thumb.jpg") (Some "A description")))
    (Some [("viewCount", views); ("commentCount", "3")]).

Definition an_item_without_title (id : string) : YouTube.item :=
  YouTube.Item (Some id)
    (Some (YouTube.Snippet None (Some "A channel") (Some "2025-01-01T00:00:00Z")
             (Some "https://example.org/thumb.jpg") (Some "A description")))
    (Some [("viewCount", "75")]).

Definition sample_videos_list (ids : string) : result (list YouTube.item) :=
  if decide (ids = "v1,v2") then Ok [an_item "v1" "Zen talk" "75"; an_item "v2" "Yoga" "1200"]
  else if decide (ids = "v3") then Ok [an_item_without_title "v3"]
  else Raise (Exn "HttpError" "quota exceeded").

(** A video as [get_popular_videos] builds it. *)
Definition a_fetched_video (id title : string) : Combined.video :=
  Combined.Video title "A channel" "2025-01-01T00:00:00Z" 100 10 1 id
                 "https://example.org/thumb.jpg" "A description" None None.

Definition sample_events : list YouTube.event :=
  [ YouTube.Mine YouTube.Week [a_fetched_video "v1" "Zen talk"];
    YouTube.Mine YouTube.Month [a_fetched_video "v1" "Zen talk"; a_fetched_video "v2" "Yoga"];
    YouTube.Select "Combined (All Time Periods)";
    YouTube.Mine YouTube.Week [a_fetched_video "v3" "Quantum mind"] ].

Definition sample_configure (api_key : string) : result unit :=
  if decide (api_key = EmptyString) then Raise (Exn "ValueError" "No API key") else Ok ().

Definition sample_generate_content (prompt : string) : result string :=
  Ok "1. **A theme**".

End MoreSamples.


(** * Properties *)

(** ** Strings *)

Section StringFacts.
Import PyStr.

Lemma lower_app a b : lower (a +:+ b) = lower a +:+ lower b.
Proof.
  unfold lower. induction a as [|c a IH]; [done |].
  change (String c a +:+ b) with (String c (a +:+ b)). simpl. by rewrite IH.
Qed.

Lemma append_assoc (a b c : string) : (a +:+ b) +:+ c = a +:+ (b +:+ c).
Proof.
  induction a as [|x a IH]; [done |].
  change (String x (a +:+ b) +:+ c = String x (a +:+ (b +:+ c))).
  change (String x ((a +:+ b) +:+ c) = String x (a +:+ (b +:+ c))). by rewrite IH.
Qed.

Lemma upto_all n s : (String.length s ≤ n)%nat → upto n s = s.
Proof.
  unfold upto. revert n. induction s as [|c s IH]; intros [|n] Hn; simpl in *;
    try done; try lia.
  f_equal. apply IH. lia.
Qed.

Lemma lower_char_not_upper c : is_upper (lower_char c) = false.
Proof. by destruct c as [[] [] [] [] [] [] [] []]. Qed.

Lemma lower_is_lowercase s : is_lowercase (lower s) = true.
Proof.
  unfold is_lowercase, lower. induction s as [|c s IH]; simpl; [done |].
  by rewrite lower_char_not_upper, IH.
Qed.

(** A pattern without a dot starts at a position of [s +:+ "..."] exactly
    when it starts there in [s]. *)
Lemma prefix_ellipsis p s :
  no_dot p → String.prefix p (s +:+ "...") = String.prefix p s.
Proof.
  unfold no_dot. revert p. induction s as [|a s IH]; intros [|c p] Hp; try done.
  - simpl in Hp. apply andb_prop in Hp as [Hc _].
    change (EmptyString +:+ "...") with "...". simpl.
    destruct (Ascii.ascii_dec c "."); [subst; done | done].
  - simpl in Hp. apply andb_prop in Hp as [_ Hp].
    change (String a s +:+ "...") with (String a (s +:+ "...")). simpl.
    destruct (Ascii.ascii_dec c a); [by apply IH | done].
Qed.

Lemma contains_ellipsis p s :
  no_dot p → contains p (s +:+ "...") = contains p s.
Proof.
  intros Hp. induction s as [|a s IH].
  - destruct p as [|c p]; [done |].
    unfold no_dot in Hp. simpl in Hp. apply andb_prop in Hp as [Hc _].
    change (EmptyString +:+ "...") with "...". simpl.
    destruct (Ascii.ascii_dec c "."); [subst; done | done].
  - change (String a s +:+ "...") with (String a (s +:+ "...")).
    cbn [contains]. rewrite IH.
    change (String a (s +:+ "...")) with (String a s +:+ "...").
    by rewrite prefix_ellipsis.
Qed.

Lemma re_search_ellipsis pat s :
  Forall no_dot (alternatives pat) →
  re_search pat (s +:+ "...") = re_search pat s.
Proof.
  unfold re_search. induction 1 as [|p ps Hp _ IH]; simpl; [done |].
  by rewrite contains_ellipsis, IH.
Qed.

End StringFacts.

(** ** The video classifier *)

Section Classifier.
Import PyStr VideoContext.

(** The ["..."] added to a cut description never decides a rule: no
    pattern holds a dot. *)
Lemma re_search_brief_desc pat title description :
  Forall no_dot (alternatives pat) →
  re_search pat (lower title +:+ lower (brief_desc description))
  = re_search pat (classified_text title description).
Proof.
  intros Hpat. unfold brief_desc, classified_text.
  destruct (200 <? String.length description)%nat eqn:Hlen.
  - rewrite lower_app. change (lower "...") with "...".
    rewrite <- append_assoc. by apply re_search_ellipsis.
  - rewrite upto_all; [done |]. apply Nat.ltb_ge in Hlen. lia.
Qed.

(** Decides that the alternatives of a literal pattern hold no dot. *)
Ltac no_dot_alternatives :=
  vm_compute alternatives;
  repeat (apply Forall_cons_2; [vm_compute; reflexivity |]);
  apply Forall_nil_2.

(** The [if]/[elif] chain is first-match over [rules]. *)
Lemma generate_video_context_first_match title description :
  generate_video_context title description
  = first_match rules "General spiritual content" (classified_text title description).
Proof.
  unfold generate_video_context, rules, first_match.
  rewrite !re_search_brief_desc; [reflexivity | no_dot_alternatives ..].
Qed.

Lemma first_match_at rs default text i pat label :
  rs !! i = Some (pat, label) →
  re_search pat text = true →
  (∀ j pat' label', j < i → rs !! j = Some (pat', label') → re_search pat' text = false) →
  first_match rs default text = label.
Proof.
  revert i. induction rs as [|[p l] rs IH]; intros [|i] Hi Hm Hbefore; simpl in *; try done.
  - injection Hi as -> ->. by rewrite Hm.
  - rewrite (Hbefore 0 p l); [| lia | done].
    apply (IH i); [done | done |].
    intros j p' l' Hj Hl. apply (Hbefore (S j) p' l'); [lia | done].
Qed.

Lemma first_match_none rs default text :
  (∀ pat label, (pat, label) ∈ rs → re_search pat text = false) →
  first_match rs default text = default.
Proof.
  induction rs as [|[p l] rs IH]; intros Hnone; simpl; [done |].
  rewrite (Hnone p l); [| by left].
  apply IH. intros p' l' Hin. apply (Hnone p' l'). by right.
Qed.

(** C6, as the code has it: when none of the ordered keyword patterns
    matches the lowercased title followed by the lowercased 200-character
    prefix of the description, the classifier returns its default label,
    which is "General spiritual content"; in particular this is the label
    of ("random topic", "nothing relevant"). *)
Theorem no_match_gives_default_label title description :
  (∀ pat label, (pat, label) ∈ rules →
     re_search pat (classified_text title description) = false) →
  generate_video_context title description = "General spiritual content".
Proof.
  intros Hnone. rewrite generate_video_context_first_match.
  by apply first_match_none.
Qed.

Lemma no_match_gives_default_label_witness :
  (∀ pat label, (pat, label) ∈ rules →
     re_search pat (classified_text "random topic" "nothing relevant") = false)
  ∧ generate_video_context "random topic" "nothing relevant" = "General spiritual content".
Proof.
  assert (H : ∀ pat label, (pat, label) ∈ rules →
     re_search pat (classified_text "random topic" "nothing relevant") = false).
  { intros pat label Hin. unfold rules in Hin.
    repeat (apply elem_of_cons in Hin as [Hin | Hin];
            [injection Hin as -> ->; vm_compute; reflexivity |]).
    by apply elem_of_nil in Hin. }
  split; [exact H |].
  apply (no_match_gives_default_label "random topic" "nothing relevant" H).
Defined.

(** C6 as stated fails: no pattern matches ("random topic", "nothing
    relevant"), yet the label returned is not "general". *)
Lemma default_label_is_not_general :
  Forall (λ r, re_search r.1 (classified_text "random topic" "nothing relevant") = false)
         rules
  ∧ generate_video_context "random topic" "nothing relevant" ≠ "general".
Proof. split; [repeat constructor | vm_compute; discriminate]. Qed.

(** C7: the rules are tried in their declared order and the label is that
    of the first rule whose pattern matches somewhere in the lowercased
    title followed by the lowercased 200-character prefix of the
    description, so a text matching several rules gets the label of the
    earliest; "I love meditation" with an empty description is labelled
    "Meditation/Mindfulness practice". *)
Theorem first_matching_rule_wins :
  (∀ title description i pat label,
     rules !! i = Some (pat, label) →
     re_search pat (classified_text title description) = true →
     (∀ j pat' label', j < i → rules !! j = Some (pat', label') →
        re_search pat' (classified_text title description) = false) →
     generate_video_context title description = label)
  ∧ generate_video_context "I love meditation" EmptyString = "Meditation/Mindfulness practice".
Proof.
  split; [| reflexivity].
  intros title description i pat label Hi Hm Hbefore.
  rewrite generate_video_context_first_match.
  by apply (first_match_at _ _ _ i pat).
Qed.

(** "Zen Yoga" matches the second and the sixth rule and gets the label
    of the second. *)
Lemma first_matching_rule_wins_witness :
  re_search "buddhis|zen|tao" (classified_text "Zen Yoga" "faith") = true
  ∧ re_search "hindu|vedanta|yoga" (classified_text "Zen Yoga" "faith") = true
  ∧ generate_video_context "Zen Yoga" "faith" = "Eastern philosophy".
Proof.
  split; [reflexivity |]. split; [reflexivity |].
  apply (proj1 first_matching_rule_wins "Zen Yoga" "faith" 1
           "buddhis|zen|tao" "Eastern philosophy");
    [reflexivity | reflexivity |].
  intros j pat' label' Hj Hl.
  destruct j as [|j]; [| lia].
  injection Hl as <- <-. reflexivity.
Defined.

End Classifier.

(** ** Dictionaries and counters *)

Section DictFacts.
Import PyDict.
Context {K : Type} `{EqDecision K}.

Lemma get_set {V} (d : list (K * V)) k v k' :
  get (set d k v) k' = if decide (k' = k) then Some v else get d k'.
Proof.
  induction d as [|[k0 v0] d IH]; simpl.
  - by destruct (decide (k' = k)).
  - destruct (decide (k = k0)) as [->|Hne]; simpl.
    + by destruct (decide (k' = k0)).
    + rewrite IH. destruct (decide (k' = k0)) as [->|]; [| done].
      destruct (decide (k0 = k)); [congruence | done].
Qed.

Lemma keys_set {V} (d : list (K * V)) k v k' :
  k' ∈ keys (set d k v) ↔ k' = k ∨ k' ∈ keys d.
Proof.
  unfold keys. induction d as [|[k0 v0] d IH]; simpl.
  - rewrite list_elem_of_singleton, elem_of_nil. tauto.
  - destruct (decide (k = k0)) as [->|Hne]; simpl.
    + rewrite !elem_of_cons. tauto.
    + rewrite !elem_of_cons, IH. tauto.
Qed.

Lemma count_incr (c : list (K * nat)) k k' :
  count (incr c k) k' = count c k' + (if decide (k' = k) then 1 else 0).
Proof.
  unfold incr, count at 1. rewrite get_set.
  destruct (decide (k' = k)) as [->|]; simpl; unfold count; lia.
Qed.

Lemma count_foldl_incr (c : list (K * nat)) l k :
  count (foldl incr c l) k = count c k + occurrences k l.
Proof.
  unfold occurrences. revert c. induction l as [|a l IH]; intros c; simpl; [lia |].
  rewrite IH, count_incr, filter_cons.
  destruct (decide (k = a)) as [Heq|Hne]; destruct (decide (a = k)) as [Heq'|Hne'];
    simpl; try congruence; lia.
Qed.

(** A [Counter] holds for each key its number of occurrences. *)
Lemma count_Counter (l : list K) k : count (Counter l) k = occurrences k l.
Proof. unfold Counter. by rewrite count_foldl_incr. Qed.

Lemma keys_foldl_incr (c : list (K * nat)) l k :
  k ∈ keys (foldl incr c l) ↔ k ∈ keys c ∨ k ∈ l.
Proof.
  revert c. induction l as [|a l IH]; intros c; simpl.
  - rewrite elem_of_nil. tauto.
  - rewrite IH. unfold incr. rewrite keys_set, elem_of_cons. tauto.
Qed.

(** Its keys are the elements counted. *)
Lemma keys_Counter (l : list K) k : k ∈ keys (Counter l) ↔ k ∈ l.
Proof.
  unfold Counter. rewrite keys_foldl_incr. unfold keys. simpl.
  rewrite elem_of_nil. tauto.
Qed.

Lemma NoDup_keys_set {V} (d : list (K * V)) k v :
  NoDup (keys d) → NoDup (keys (set d k v)).
Proof.
  unfold keys. induction d as [|[k0 v0] d IH]; intros Hd; simpl.
  - apply NoDup_singleton.
  - apply NoDup_cons in Hd as [Hk0 Hd].
    destruct (decide (k = k0)) as [->|Hne]; simpl.
    + by apply NoDup_cons.
    + apply NoDup_cons. split; [| by apply IH].
      intros [->|Hin]%(keys_set d k v k0); done.
Qed.

(** A [Counter] holds each key once. *)
Lemma NoDup_keys_Counter (l : list K) : NoDup (keys (Counter l)).
Proof.
  unfold Counter. generalize (NoDup_nil_2 (A := K)).
  change (@nil K) with (keys (@nil (K * nat))).
  generalize (@nil (K * nat)). induction l as [|a l IH]; intros c Hc; [done |].
  apply IH. by apply NoDup_keys_set.
Qed.

Lemma occurrences_pos (l : list K) k : 0 < occurrences k l ↔ k ∈ l.
Proof.
  unfold occurrences. induction l as [|a l IH]; simpl.
  - rewrite elem_of_nil. lia.
  - rewrite filter_cons, elem_of_cons. destruct (decide (a = k)) as [->|]; simpl.
    + split; [by left | lia].
    + rewrite IH. split; [by right | intros [->|]; done].
Qed.

End DictFacts.

(** ** The frequency tables of [extract_themes] *)

Section Themes.
Import PyDict ThemesTracker.

Lemma foldl_extend {A} (acc : list A) (ls : list (list A)) :
  foldl (λ all_tokens tokens, all_tokens ++ tokens) acc ls = acc ++ mjoin ls.
Proof.
  revert acc. induction ls as [|l ls IH]; intros acc; simpl.
  - by rewrite app_nil_r.
  - by rewrite IH, app_assoc.
Qed.

Lemma adjacent_cons_cons (x y a b : string) l :
  adjacent x y (a :: b :: l)
  = (if decide (a = x ∧ b = y) then 1 else 0) + adjacent x y (b :: l).
Proof. reflexivity. Qed.

Lemma occurrences_bigrams (l : list string) x y :
  occurrences (x, y) (bigrams l) = adjacent x y l.
Proof.
  unfold occurrences, bigrams. induction l as [|a [|b l] IH]; [done | done |].
  change (zip (a :: b :: l) (tail (a :: b :: l)))
    with ((a, b) :: zip (b :: l) (tail (b :: l))).
  rewrite filter_cons, adjacent_cons_cons, <- IH.
  destruct (decide ((a, b) = (x, y))) as [Heq|Hne];
    destruct (decide (a = x ∧ b = y)) as [[? ?]|Hn]; simpl; try done.
  - injection Heq as -> ->. by destruct Hn.
  - subst. done.
Qed.

Lemma adjacent_cons (x y a : string) l : adjacent x y l ≤ adjacent x y (a :: l).
Proof. destruct l; simpl; lia. Qed.

Lemma adjacent_app (x y : string) l1 l2 :
  adjacent x y l1 + adjacent x y l2 ≤ adjacent x y (l1 ++ l2).
Proof.
  induction l1 as [|a [|b l1] IH].
  - simpl. lia.
  - simpl app. pose proof (adjacent_cons x y a l2). simpl in *. lia.
  - change ((a :: b :: l1) ++ l2) with (a :: b :: (l1 ++ l2)).
    rewrite !adjacent_cons_cons. change (b :: (l1 ++ l2)) with ((b :: l1) ++ l2). lia.
Qed.

Lemma adjacent_mjoin (x y : string) (ls : list (list string)) :
  sum_list (adjacent x y <$> ls) ≤ adjacent x y (mjoin ls).
Proof.
  induction ls as [|l ls IH]; [done |].
  change (sum_list (adjacent x y <$> l :: ls))
    with (adjacent x y l + sum_list (adjacent x y <$> ls)).
  change (mjoin (l :: ls)) with (l ++ mjoin ls).
  pose proof (adjacent_app x y l (mjoin ls)). lia.
Qed.

(** C1, as the code has it: the bigram table counts, for each ordered
    pair, how often its tokens are adjacent in the concatenation of all
    the items' token sequences. Every adjacency inside an item is
    counted, and so is the pair made of the last token of an item and the
    first token of the next; for [["a","b"],["c","d"]] the table holds
    (a,b), (b,c) and (c,d), each once. *)
Theorem bigram_table_counts_concatenation :
  (∀ (token_lists : list (list string)) x y,
     count (count_themes token_lists).2 (x, y) = adjacent x y (mjoin token_lists)
     ∧ ((x, y) ∈ keys (count_themes token_lists).2
        ↔ 0 < adjacent x y (mjoin token_lists))
     ∧ sum_list (adjacent x y <$> token_lists)
       ≤ count (count_themes token_lists).2 (x, y))
  ∧ (∀ (before after : list (list string)) (l1 l2 : list string) x y,
       0 < count (count_themes (before ++ (l1 ++ [x]) :: (y :: l2) :: after)).2 (x, y))
  ∧ (count_themes [["a"; "b"]; ["c"; "d"]]).2
    = [(("a", "b"), 1); (("b", "c"), 1); (("c", "d"), 1)].
Proof.
  assert (Hcount : ∀ (token_lists : list (list string)) x y,
    count (count_themes token_lists).2 (x, y) = adjacent x y (mjoin token_lists)).
  { intros. unfold count_themes. cbn [snd].
    by rewrite foldl_extend, count_Counter, occurrences_bigrams. }
  split; [| split; [| reflexivity]].
  - intros token_lists x y. split; [apply Hcount |]. split.
    + unfold count_themes. cbn [snd].
      by rewrite foldl_extend, keys_Counter, <- occurrences_pos, occurrences_bigrams.
    + rewrite Hcount. apply adjacent_mjoin.
  - intros before after l1 l2 x y. rewrite Hcount.
    assert (Hmid : 0 < adjacent x y ((l1 ++ [x]) ++ y :: l2)).
    { clear. induction l1 as [|a [|b l1] IH].
      - simpl. destruct (decide (x = x ∧ y = y)) as [|Hn]; [lia | by destruct Hn].
      - simpl in *. lia.
      - change (((a :: b :: l1) ++ [x]) ++ y :: l2)
          with (a :: ((b :: l1) ++ [x]) ++ y :: l2).
        pose proof (adjacent_cons x y a (((b :: l1) ++ [x]) ++ y :: l2)). lia. }
    rewrite join_app.
    change (mjoin ((l1 ++ [x]) :: (y :: l2) :: after))
      with ((l1 ++ [x]) ++ (y :: l2) ++ mjoin after).
    pose proof (adjacent_app x y (mjoin before)
                  ((l1 ++ [x]) ++ (y :: l2) ++ mjoin after)) as Hb.
    pose proof (adjacent_app x y ((l1 ++ [x]) ++ (y :: l2)) (mjoin after)) as Ha.
    rewrite <- (app_assoc (l1 ++ [x]) (y :: l2) (mjoin after)) in Ha. lia.
Qed.

(** C1 as stated fails: for [["a","b"],["c","d"]] the table holds the pair
    (b,c), which is adjacent in neither item. *)
Lemma bigram_spans_two_items :
  adjacent "b" "c" ["a"; "b"] = 0
  ∧ adjacent "b" "c" ["c"; "d"] = 0
  ∧ ("b", "c") ∈ keys (count_themes [["a"; "b"]; ["c"; "d"]]).2
  ∧ count (count_themes [["a"; "b"]; ["c"; "d"]]).2 ("b", "c") = 1.
Proof.
  split; [reflexivity |]. split; [reflexivity |]. split; [| reflexivity].
  vm_compute. apply list_elem_of_In. simpl. tauto.
Qed.

End Themes.

(** ** [generate_titles] *)

Section Titles.
Import PyDict ThemesTracker Samples.

(** What the loop of [generate_titles] accumulates. *)
Lemma collect_from acc (results : list sub_results) :
  foldl (λ '(all_words, all_bigrams, overall_sentiment) sub_results,
           let words := take 5 (keys (word_freq sub_results)) in
           let bigrams := take 3 (keys (bigram_freq sub_results)) in
           (all_words ++ words, all_bigrams ++ bigrams,
            pyfloat_add overall_sentiment (sentiment sub_results)))
        acc results
  = (acc.1.1 ++ mjoin ((λ s, take 5 (keys (word_freq s))) <$> results),
     acc.1.2 ++ mjoin ((λ s, take 3 (keys (bigram_freq s))) <$> results),
     foldl (λ o s, pyfloat_add o (sentiment s)) acc.2 results).
Proof.
  revert acc. induction results as [|r results IH]; intros [[ws bs] o]; simpl.
  - by rewrite !app_nil_r.
  - rewrite IH. simpl. by rewrite !app_assoc.
Qed.

Lemma all_words_blocks results_dict :
  all_words results_dict
  = mjoin ((λ s, take 5 (keys (word_freq s))) <$> values results_dict).
Proof. unfold all_words, collect. by rewrite collect_from. Qed.

Lemma all_bigrams_blocks results_dict :
  all_bigrams results_dict
  = mjoin ((λ s, take 3 (keys (bigram_freq s))) <$> values results_dict).
Proof. unfold all_bigrams, collect. by rewrite collect_from. Qed.

Lemma generate_titles_titles results_dict :
  generate_titles results_dict
  = titles (all_words results_dict) (all_bigrams results_dict).
Proof.
  unfold generate_titles, all_words, all_bigrams.
  by destruct (collect (values results_dict)) as [[ws bs] o].
Qed.

Lemma titles_short_words ws bs : length ws < 5 → titles ws bs = Raise IndexError.
Proof.
  intros Hlen. unfold titles.
  destruct ws as [|w0 [|w1 [|w2 [|w3 [|w4 ws]]]]]; simpl in Hlen; try lia;
    try reflexivity.
  destruct bs; reflexivity.
Qed.

Lemma titles_short_bigrams ws bs : length bs < 3 → titles ws bs = Raise IndexError.
Proof.
  intros Hlen. destruct (decide (length ws < 5)) as [|Hws]; [by apply titles_short_words |].
  unfold titles.
  destruct ws as [|w0 [|w1 [|w2 [|w3 [|w4 ws]]]]]; simpl in Hws; try lia.
  destruct bs as [|b0 [|b1 [|b2 bs]]]; simpl in Hlen; try lia; reflexivity.
Qed.

Lemma titles_enough ws bs :
  5 ≤ length ws → 3 ≤ length bs → ∃ ts, titles ws bs = Ok ts ∧ length ts = 10.
Proof.
  intros Hws Hbs. unfold titles.
  destruct ws as [|w0 [|w1 [|w2 [|w3 [|w4 ws]]]]]; simpl in Hws; try lia.
  destruct bs as [|b0 [|b1 [|b2 bs]]]; simpl in Hbs; try lia.
  eexists. split; reflexivity.
Qed.

(** C2, as the code has it: when the merged lists hold fewer than five
    terms or fewer than three bigrams, that is fewer than the templates
    index, [generate_titles] fails with Python's own IndexError ("list
    index out of range", which names no slot) and returns no title list,
    neither malformed nor truncated; with at least five terms and three
    bigrams it returns ten titles. *)
Theorem too_few_terms_raise_IndexError results_dict :
  (length (all_words results_dict) < 5 ∨ length (all_bigrams results_dict) < 3 →
   generate_titles results_dict = Raise (Exn "IndexError" "list index out of range"))
  ∧ (5 ≤ length (all_words results_dict) → 3 ≤ length (all_bigrams results_dict) →
     ∃ ts, generate_titles results_dict = Ok ts ∧ length ts = 10).
Proof.
  rewrite generate_titles_titles. split.
  - intros [Hw | Hb]; [by apply titles_short_words | by apply titles_short_bigrams].
  - apply titles_enough.
Qed.

Lemma too_few_terms_raise_IndexError_witness :
  length (all_words [("Existentialism", one_word)]) < 5
  ∧ generate_titles [("Existentialism", one_word)]
    = Raise (Exn "IndexError" "list index out of range").
Proof.
  assert (H : length (all_words [("Existentialism", one_word)]) < 5)
    by (vm_compute; lia).
  split; [exact H |].
  apply (proj1 (too_few_terms_raise_IndexError [("Existentialism", one_word)])).
  left. exact H.
Defined.

(** C2 as stated fails: with one term and no bigram the failure is an
    IndexError whose message names no slot, not an InsufficientDataError. *)
Lemma insufficient_data_error_is_IndexError :
  all_words [("Existentialism", one_word)] = ["purpose"]
  ∧ all_bigrams [("Existentialism", one_word)] = []
  ∧ ∃ e, generate_titles [("Existentialism", one_word)] = Raise e
         ∧ exn_class e = "IndexError"
         ∧ exn_class e ≠ "InsufficientDataError"
         ∧ exn_message e = "list index out of range".
Proof.
  split; [reflexivity |]. split; [reflexivity |].
  exists IndexError. split; [reflexivity |]. split; [reflexivity |].
  split; [discriminate | reflexivity].
Qed.

(** C3, as the code has it: the merged term list is the concatenation, in
    source order, of one list per source, which holds five unigrams of
    that source's table (all of them when the table has fewer), each
    once, and the merged bigram list likewise with three bigrams per
    source; nothing is re-ranked across sources. *)
Theorem merged_terms_are_per_source_blocks results_dict :
  ∃ (word_blocks : list (list string)) (bigram_blocks : list (list (string * string))),
    all_words results_dict = mjoin word_blocks
    ∧ all_bigrams results_dict = mjoin bigram_blocks
    ∧ Forall2 (λ s block, block ⊆ keys (word_freq s)
                          ∧ length block = 5 `min` length (keys (word_freq s))
                          ∧ (NoDup (keys (word_freq s)) → NoDup block))
              (values results_dict) word_blocks
    ∧ Forall2 (λ s block, block ⊆ keys (bigram_freq s)
                          ∧ length block = 3 `min` length (keys (bigram_freq s))
                          ∧ (NoDup (keys (bigram_freq s)) → NoDup block))
              (values results_dict) bigram_blocks.
Proof.
  exists ((λ s, take 5 (keys (word_freq s))) <$> values results_dict),
         ((λ s, take 3 (keys (bigram_freq s))) <$> values results_dict).
  split; [apply all_words_blocks |]. split; [apply all_bigrams_blocks |].
  split; apply Forall2_fmap_r, Forall_Forall2_diag, Forall_forall; intros s _; cbn beta;
    (split; [apply subseteq_take |]; split; [apply length_take |]);
    intros Hkeys; apply (sublist_NoDup _ _ Hkeys), sublist_take.
Qed.

Lemma merged_terms_are_per_source_blocks_witness :
  ∃ word_blocks : list (list string),
    all_words [("Existentialism", growth_purpose); ("LifePurpose", one_word)]
    = mjoin word_blocks
    ∧ Forall2 (λ s block, block ⊆ keys (word_freq s)
                          ∧ length block = 5 `min` length (keys (word_freq s))
                          ∧ (NoDup (keys (word_freq s)) → NoDup block))
              [growth_purpose; one_word] word_blocks.
Proof.
  destruct (merged_terms_are_per_source_blocks
              [("Existentialism", growth_purpose); ("LifePurpose", one_word)])
    as (word_blocks & _ & Hwords & _ & Hblocks & _).
  by exists word_blocks.
Defined.

(** C3 as stated fails: a source whose table holds "growth" once, counted
    first, and "purpose" twice contributes "growth" before "purpose",
    while the order by descending count puts "purpose" first. *)
Lemma merged_terms_not_ranked_by_count :
  all_words [("Existentialism", growth_purpose)] = ["growth"; "purpose"]
  ∧ MergeSpec.merged_top_terms 5 (values [("Existentialism", growth_purpose)])
    = ["purpose"; "growth"]
  ∧ all_words [("Existentialism", growth_purpose)]
    ≠ MergeSpec.merged_top_terms 5 (values [("Existentialism", growth_purpose)]).
Proof. split; [reflexivity |]. split; [reflexivity |]. vm_compute. discriminate. Qed.

(** C10: two results dictionaries with the same sources in the same
    order and the same word and bigram tables per source give the same
    titles (or the same failure), whatever their sentiments are. *)
Theorem titles_ignore_sentiment (results1 results2 : list (string * sub_results)) :
  Forall2 (λ a b, a.1 = b.1
                  ∧ word_freq a.2 = word_freq b.2
                  ∧ bigram_freq a.2 = bigram_freq b.2) results1 results2 →
  generate_titles results1 = generate_titles results2.
Proof.
  intros Hagree. rewrite !generate_titles_titles, !all_words_blocks, !all_bigrams_blocks.
  assert (Hw : (λ s, take 5 (keys (word_freq s))) <$> values results1
               = (λ s, take 5 (keys (word_freq s))) <$> values results2).
  { unfold values. induction Hagree as [|[n1 a] [n2 b] r1 r2 (_ & Hwf & _) _ IH]; [done |].
    rewrite !fmap_cons. cbn [snd] in *. rewrite Hwf. f_equal. exact IH. }
  assert (Hb : (λ s, take 3 (keys (bigram_freq s))) <$> values results1
               = (λ s, take 3 (keys (bigram_freq s))) <$> values results2).
  { clear Hw. unfold values.
    induction Hagree as [|[n1 a] [n2 b] r1 r2 (_ & _ & Hbf) _ IH]; [done |].
    rewrite !fmap_cons. cbn [snd] in *. rewrite Hbf. f_equal. exact IH. }
  by rewrite Hw, Hb.
Qed.

Lemma titles_ignore_sentiment_witness :
  sentiment (five_words (Float 1)) ≠ sentiment (five_words NaN)
  ∧ generate_titles [("Existentialism", five_words (Float 1))]
    = generate_titles [("Existentialism", five_words NaN)].
Proof.
  split; [discriminate |].
  apply (titles_ignore_sentiment [("Existentialism", five_words (Float 1))]
                                 [("Existentialism", five_words NaN)]).
  repeat constructor.
Defined.

End Titles.

(** ** The result monad *)

Section ResultFacts.
Context {A B : Type} (f : A → result B).

Lemma mapM_cons (x : A) (l : list A) :
  mapM f (x :: l) = y ← f x; k ← mapM f l; Ok (y :: k).
Proof. reflexivity. Qed.

Lemma mapM_Ok (l : list A) (k : list B) :
  mapM f l = Ok k ↔ Forall2 (λ x y, f x = Ok y) l k.
Proof.
  revert k. induction l as [|x l IH]; intros k.
  - split; [intros [= <-]; constructor | by inversion 1].
  - rewrite mapM_cons. split.
    + destruct (f x) as [y|e] eqn:Hx; [| done].
      destruct (mapM f l) as [k'|e] eqn:Hl; [| done].
      intros [= <-]. constructor; [done | by apply IH].
    + inversion 1 as [|? y ? k' Hy Hk]; subst.
      apply IH in Hk. by rewrite Hy, Hk.
Qed.

Lemma mapM_Raise (l : list A) :
  Exists (λ x, ∃ e, f x = Raise e) l → ∃ e, mapM f l = Raise e.
Proof.
  induction 1 as [x l [e He] | x l _ [e IH]]; rewrite mapM_cons.
  - rewrite He. by exists e.
  - destruct (f x) as [y|e']; [| by exists e'].
    rewrite IH. by exists e.
Qed.

Lemma mapM_total (l : list A) :
  Forall (λ x, ∃ y, f x = Ok y) l → ∃ k, mapM f l = Ok k.
Proof.
  induction 1 as [|x l [y Hy] _ [k IH]]; [by eexists |].
  rewrite mapM_cons, Hy, IH. by eexists.
Qed.

End ResultFacts.

(** ** [preprocess_text], [analyze_sentiment] and the mean *)

Section AnalyzerFacts.
Import PyStr PyDict ThemesTracker.

Variable word_tokenize : string → result (list string).
Variable lemmatize : string → result string.
Variable stop_words : gset string.
Variable polarity : string → result Q.

Lemma Forall2_elem_of_r {A B} (P : A → B → Prop) l k y :
  Forall2 P l k → y ∈ k → ∃ x, x ∈ l ∧ P x y.
Proof.
  induction 1 as [|x y' l k Hxy _ IH]; intros Hy.
  - by apply elem_of_nil in Hy.
  - apply elem_of_cons in Hy as [->|Hy].
    + exists x. split; [by left | done].
    + destruct (IH Hy) as (x' & Hx' & HP). exists x'. split; [by right | done].
Qed.

Lemma preprocess_text_body_str text :
  preprocess_text_body word_tokenize lemmatize stop_words text
  = if bool_decide (str text = EmptyString) || isspace (str text) then Ok []
    else
      tokens ← word_tokenize (lower (str text));
      tokens ← mapM lemmatize (filter (λ token, keep_token stop_words token = true) tokens);
      Ok tokens.
Proof. by destruct text. Qed.

Lemma keep_token_true token :
  keep_token stop_words token = true →
  isalpha token = true ∧ (token ∉ stop_words) ∧ 2 ≤ String.length token.
Proof.
  unfold keep_token. intros H.
  apply andb_prop in H as [H Hlen]. apply andb_prop in H as [Halpha Hstop].
  apply bool_decide_eq_true in Hstop. apply Nat.ltb_lt in Hlen. by repeat split.
Qed.

(** C5, as the code has it: for every input, a string or a value turned
    into one by [str], the normalizer returns a sequence and never an
    error; every token returned is the lemma of a token of the lowercased
    text that is purely alphabetic, of length at least 2 and outside the
    stopword set, and lowercase when the tokenizer keeps lowercase text
    lowercase; empty or all-whitespace input gives the empty sequence, and
    so does any failure of the tokenizer or the lemmatizer. *)
Theorem normalizer_filters_then_lemmatizes (text : pyobj) :
  (∀ token, token ∈ preprocess_text word_tokenize lemmatize stop_words text →
     ∃ tokens t0,
       word_tokenize (lower (str text)) = Ok tokens ∧ t0 ∈ tokens
       ∧ lemmatize t0 = Ok token
       ∧ isalpha t0 = true ∧ 2 ≤ String.length t0 ∧ (t0 ∉ stop_words)
       ∧ (keeps_lowercase word_tokenize → is_lowercase t0 = true))
  ∧ (str text = EmptyString ∨ isspace (str text) = true →
     preprocess_text word_tokenize lemmatize stop_words text = [])
  ∧ (∀ e, preprocess_text_body word_tokenize lemmatize stop_words text = Raise e →
          preprocess_text word_tokenize lemmatize stop_words text = []).
Proof.
  unfold preprocess_text. rewrite preprocess_text_body_str.
  split; [| split].
  - intros token Hin.
    destruct (bool_decide (str text = EmptyString) || isspace (str text));
      [by apply elem_of_nil in Hin |].
    destruct (word_tokenize (lower (str text))) as [tokens|e] eqn:Htok;
      [| by apply elem_of_nil in Hin].
    change (token ∈ match (kept ← mapM lemmatize
                               (filter (λ token, keep_token stop_words token = true) tokens);
                           Ok kept) with
                    | Ok out => out
                    | Raise _ => []
                    end) in Hin.
    destruct (mapM lemmatize _) as [out|e] eqn:Hmap; [| by apply elem_of_nil in Hin].
    change (token ∈ out) in Hin.
    apply mapM_Ok in Hmap.
    destruct (Forall2_elem_of_r _ _ _ _ Hmap Hin) as (t0 & Ht0 & Hlemma).
    apply list_elem_of_filter in Ht0 as [Hkeep Ht0].
    apply keep_token_true in Hkeep as (Halpha & Hstop & Hlen).
    exists tokens, t0. repeat split; try done.
    intros Hcase. apply (Hcase (lower (str text)) tokens t0 Htok Ht0).
    apply lower_is_lowercase.
  - intros [Hempty | Hspace].
    + by rewrite Hempty.
    + rewrite Hspace. by rewrite orb_true_r.
  - by intros e ->.
Qed.

Lemma analyze_sentiment_texts df texts :
  full_text df = Some texts →
  analyze_sentiment polarity df
  = match mapM polarity texts with
    | Ok sentiments => sentiments
    | Raise _ => replicate (len df) 0%Q
    end.
Proof. unfold analyze_sentiment, column_full_text. by intros ->. Qed.

(** C4, as the code has it: without a frame column to read, or when the
    scoring of any one text fails, [analyze_sentiment] returns the neutral
    score 0 for every item of the frame, so one failure replaces all the
    scores of the batch; when no text fails each item gets its own
    polarity; no exception leaves the function. *)
Theorem scoring_failure_zeroes_the_batch (df : dataframe) :
  (full_text df = None → analyze_sentiment polarity df = replicate (len df) 0%Q)
  ∧ (∀ texts, full_text df = Some texts →
       (Exists (λ t, ∃ e, polarity t = Raise e) texts →
        analyze_sentiment polarity df = replicate (len df) 0%Q)
       ∧ (Forall (λ t, ∃ q, polarity t = Ok q) texts →
          Forall2 (λ t q, polarity t = Ok q) texts (analyze_sentiment polarity df))).
Proof.
  split.
  - unfold analyze_sentiment, column_full_text. by intros ->.
  - intros texts Htexts. rewrite (analyze_sentiment_texts df texts Htexts). split.
    + intros Hfail. by destruct (mapM_Raise polarity texts Hfail) as [e ->].
    + intros Hall. destruct (mapM_total polarity texts Hall) as [k Hk].
      rewrite Hk. by apply mapM_Ok.
Qed.

End AnalyzerFacts.

Section AnalyzerCases.
Import PyStr PyDict ThemesTracker Samples.

Lemma split_words_all_chars (P : ascii → bool) s :
  all_chars P s = true → Forall (λ w, all_chars P w = true) (split_words s).
Proof.
  induction s as [|c s IH]; intros Hs; simpl in *.
  - by repeat constructor.
  - apply andb_prop in Hs as [Hc Hs]. specialize (IH Hs).
    destruct (is_space c); [by constructor |].
    destruct (split_words s) as [|w ws].
    + repeat constructor. simpl. by rewrite Hc.
    + apply Forall_cons_1 in IH as [Hw Hws].
      constructor; [| done]. simpl. by rewrite Hc, Hw.
Qed.

Lemma sample_tokenize_keeps_lowercase : keeps_lowercase sample_tokenize.
Proof.
  intros s tokens token [= <-] Hin Hs.
  apply list_elem_of_filter in Hin as [_ Hin].
  pose proof (split_words_all_chars _ s Hs) as Hall.
  rewrite Forall_forall in Hall. by apply Hall.
Qed.

Lemma normalizer_filters_then_lemmatizes_witness :
  "purpose" ∈ preprocess_text sample_tokenize sample_lemmatize sample_stop_words
                (PyStr "Finding Purpose")
  ∧ ∃ tokens t0,
      sample_tokenize (lower "Finding Purpose") = Ok tokens ∧ t0 ∈ tokens
      ∧ sample_lemmatize t0 = Ok "purpose"
      ∧ isalpha t0 = true ∧ 2 ≤ String.length t0 ∧ (t0 ∉ sample_stop_words)
      ∧ is_lowercase t0 = true.
Proof.
  assert (Hin : "purpose" ∈ preprocess_text sample_tokenize sample_lemmatize
                              sample_stop_words (PyStr "Finding Purpose")).
  { vm_compute. apply list_elem_of_In. simpl. tauto. }
  split; [exact Hin |].
  destruct (proj1 (normalizer_filters_then_lemmatizes sample_tokenize sample_lemmatize
                     sample_stop_words (PyStr "Finding Purpose")) "purpose" Hin)
    as (tokens & t0 & Htok & Ht0 & Hlemma & Halpha & Hlen & Hstop & Hcase).
  exists tokens, t0. repeat split; try done.
  apply Hcase, sample_tokenize_keeps_lowercase.
Defined.

(** C5 as stated fails: "wills" passes the filter and its lemma "will" is
    a stopword, so a returned token is in the stopword set. *)
Lemma lemma_of_kept_token_is_stopword :
  sample_tokenize (lower "The Wills") = Ok ["the"; "wills"]
  ∧ sample_lemmatize "wills" = Ok "will"
  ∧ preprocess_text sample_tokenize sample_lemmatize sample_stop_words (PyStr "The Wills")
    = ["will"]
  ∧ "will" ∈ sample_stop_words.
Proof.
  split; [reflexivity |]. split; [reflexivity |]. split; [vm_compute; reflexivity |].
  apply elem_of_list_to_set, list_elem_of_In. simpl. tauto.
Qed.

Lemma scoring_failure_zeroes_the_batch_witness :
  full_text two_posts = Some ["good day"; "bad day"]
  ∧ Exists (λ t, ∃ e, sample_polarity t = Raise e) ["good day"; "bad day"]
  ∧ analyze_sentiment sample_polarity two_posts = [0%Q; 0%Q].
Proof.
  assert (Hfail : Exists (λ t, ∃ e, sample_polarity t = Raise e) ["good day"; "bad day"]).
  { apply Exists_cons_tl, Exists_cons_hd. eexists. reflexivity. }
  split; [reflexivity |]. split; [exact Hfail |].
  apply (proj1 (proj2 (scoring_failure_zeroes_the_batch sample_polarity two_posts)
                  ["good day"; "bad day"] eq_refl) Hfail).
Defined.

(** C4 as stated fails: the second text cannot be scored, and the first
    item, whose polarity is 1, gets 0 as well. *)
Lemma one_failure_changes_other_scores :
  sample_polarity "good day" = Ok 1%Q
  ∧ (∃ e, sample_polarity "bad day" = Raise e)
  ∧ analyze_sentiment sample_polarity two_posts = [0%Q; 0%Q]
  ∧ analyze_sentiment sample_polarity two_posts ≠ [1%Q; 0%Q].
Proof.
  split; [reflexivity |]. split; [eexists; reflexivity |].
  split; [reflexivity | vm_compute; discriminate].
Qed.

End AnalyzerCases.

(** ** The combined view of the mined videos *)

Section CombinedFacts.
Import Combined.

Lemma tag_all_lookup tag videos (store : gmap nat video) v :
  tag_all tag videos store !! v
  = (if decide (v ∈ videos) then set_source tag else id) <$> store !! v.
Proof.
  unfold tag_all. revert store. induction videos as [|u videos IH]; intros store.
  - cbn [foldl]. destruct (decide (v ∈ [])) as [Hin|_]; [by apply elem_of_nil in Hin |].
    by destruct (store !! v).
  - cbn [foldl]. rewrite IH, lookup_alter.
    destruct (decide (v ∈ u :: videos)) as [Hin'|Hnin'];
      destruct (decide (v ∈ videos)) as [Hin|Hnin];
      destruct (decide (u = v)) as [->|Hne];
      rewrite ?elem_of_cons in *;
      try (destruct (store !! v); reflexivity);
      try (exfalso; tauto).
    exfalso. destruct Hin' as [->|?]; done.
Qed.

Lemma tag_all_id_of tag videos (store : gmap nat video) v :
  id_of (tag_all tag videos store) v = id_of store v.
Proof.
  unfold id_of. rewrite tag_all_lookup.
  destruct (store !! v) as [d|]; [| done].
  by destruct (decide (v ∈ videos)).
Qed.

Lemma ids_cons (store : gmap nat video) v videos :
  ids store (v :: videos)
  = match id_of store v with
    | Some i => i :: ids store videos
    | None => ids store videos
    end.
Proof. reflexivity. Qed.

Lemma firsts_cons (store : gmap nat video) seen v videos :
  firsts store seen (v :: videos)
  = match id_of store v with
    | Some i =>
        if decide (i ∉ seen) then v :: firsts store (seen ∪ {[i]}) videos
        else firsts store seen videos
    | None => firsts store seen videos
    end.
Proof. reflexivity. Qed.

Lemma ids_ext (store store' : gmap nat video) videos :
  (∀ v, id_of store' v = id_of store v) → ids store' videos = ids store videos.
Proof.
  intros Hid. induction videos as [|v videos IH]; [done |].
  by rewrite !ids_cons, Hid, IH.
Qed.

Lemma firsts_ext (store store' : gmap nat video) seen videos :
  (∀ v, id_of store' v = id_of store v) →
  firsts store' seen videos = firsts store seen videos.
Proof.
  intros Hid. revert seen. induction videos as [|v videos IH]; intros seen; [done |].
  rewrite !firsts_cons, Hid. destruct (id_of store v) as [i|]; [| done].
  destruct (decide (i ∉ seen)); by rewrite IH.
Qed.

(** The loop selects the first video of each id. *)
Lemma foldl_dedup_step (store : gmap nat video) selected seen videos :
  (foldl (dedup_step store) (selected, seen) videos).1
  = selected ++ firsts store seen videos.
Proof.
  revert selected seen. induction videos as [|v videos IH]; intros selected seen.
  - cbn [foldl firsts fst]. by rewrite app_nil_r.
  - rewrite firsts_cons. cbn [foldl]. unfold dedup_step at 2.
    destruct (id_of store v) as [i|]; [| apply IH].
    destruct (decide (i ∉ seen)); [| apply IH].
    by rewrite IH, <- app_assoc.
Qed.

Lemma elem_of_ids (store : gmap nat video) videos i :
  i ∈ ids store videos ↔ ∃ v, v ∈ videos ∧ id_of store v = Some i.
Proof. unfold ids. apply list_elem_of_omap. Qed.

Lemma firsts_app (store : gmap nat video) seen l1 l2 :
  firsts store seen (l1 ++ l2)
  = firsts store seen l1 ++ firsts store (seen ∪ list_to_set (ids store l1)) l2.
Proof.
  revert seen. induction l1 as [|v l1 IH]; intros seen.
  - change (ids store []) with (@nil string). cbn [app firsts list_to_set].
    by rewrite (right_id_L ∅ (∪)).
  - change ((v :: l1) ++ l2) with (v :: (l1 ++ l2)).
    rewrite !firsts_cons, ids_cons.
    destruct (id_of store v) as [i|]; [| apply IH].
    destruct (decide (i ∉ seen)) as [Hnew|Hold].
    + rewrite IH. cbn [list_to_set app]. do 3 f_equal.
      by rewrite (assoc_L (∪)).
    + rewrite IH. cbn [list_to_set]. do 2 f_equal.
      apply dec_stable in Hold.
      rewrite (assoc_L (∪)). f_equal. apply leibniz_equiv.
      intros j. rewrite elem_of_union, elem_of_singleton.
      split; [tauto | intros [? | ->]; done].
Qed.

Lemma elem_of_firsts (store : gmap nat video) seen videos v :
  v ∈ firsts store seen videos →
  v ∈ videos ∧ ∃ i, id_of store v = Some i ∧ i ∉ seen.
Proof.
  revert seen. induction videos as [|u videos IH]; intros seen Hin.
  - by apply elem_of_nil in Hin.
  - rewrite firsts_cons in Hin. destruct (id_of store u) as [i|] eqn:Hu.
    + destruct (decide (i ∉ seen)) as [Hnew|Hold].
      * apply elem_of_cons in Hin as [->|Hin].
        -- split; [by left | by exists i].
        -- destruct (IH _ Hin) as (Hv & j & Hj & Hnj).
           split; [by right |]. exists j. split; [done |].
           intros Hseen. apply Hnj, elem_of_union. by left.
      * destruct (IH _ Hin) as (Hv & j & Hj & Hnj). split; [by right | by exists j].
    + destruct (IH _ Hin) as (Hv & j & Hj & Hnj). split; [by right | by exists j].
Qed.

Lemma ids_firsts (store : gmap nat video) seen videos i :
  i ∈ ids store (firsts store seen videos) ↔ i ∈ ids store videos ∧ i ∉ seen.
Proof.
  revert seen. induction videos as [|u videos IH]; intros seen.
  - change (ids store (firsts store seen [])) with (@nil string).
    change (ids store []) with (@nil string). rewrite elem_of_nil. tauto.
  - rewrite firsts_cons, ids_cons.
    destruct (id_of store u) as [j|] eqn:Hu; [| apply IH].
    destruct (decide (j ∉ seen)) as [Hnew|Hold].
    + rewrite ids_cons, Hu, !elem_of_cons, IH, not_elem_of_union, elem_of_singleton.
      destruct (decide (i = j)) as [->|Hne]; tauto.
    + rewrite elem_of_cons, IH. apply dec_stable in Hold.
      destruct (decide (i = j)) as [->|Hne]; tauto.
Qed.

Lemma NoDup_ids_firsts (store : gmap nat video) seen videos :
  NoDup (ids store (firsts store seen videos)).
Proof.
  revert seen. induction videos as [|u videos IH]; intros seen.
  - constructor.
  - rewrite firsts_cons.
    destruct (id_of store u) as [j|] eqn:Hu; [| apply IH].
    destruct (decide (j ∉ seen)) as [Hnew|Hold]; [| apply IH].
    rewrite ids_cons, Hu. constructor; [| apply IH].
    rewrite ids_firsts, not_elem_of_union, elem_of_singleton. tauto.
Qed.

Lemma firsts_sublist (store : gmap nat video) seen videos :
  firsts store seen videos `sublist_of` videos.
Proof.
  revert seen. induction videos as [|u videos IH]; intros seen; [done |].
  rewrite firsts_cons.
  destruct (id_of store u) as [j|]; [| by apply sublist_cons].
  destruct (decide (j ∉ seen)); [by apply sublist_skip | by apply sublist_cons].
Qed.

Lemma combined_firsts weekly monthly biannual (store : gmap nat video) :
  (combined weekly monthly biannual store).1
  = firsts store ∅ (weekly ++ monthly ++ biannual).
Proof.
  unfold combined.
  destruct (foldl _ _ _) as [selected seen] eqn:Hloop.
  apply (f_equal fst) in Hloop. rewrite foldl_dedup_step in Hloop.
  cbn [fst app] in *. subst selected.
  apply firsts_ext. intros v. by rewrite !tag_all_id_of.
Qed.

Lemma combined_store weekly monthly biannual (store : gmap nat video) :
  (combined weekly monthly biannual store).2
  = tag_all "Last 6 Months" biannual
      (tag_all "Last Month" monthly (tag_all "Last Week" weekly store)).
Proof. unfold combined. by destruct (foldl _ _ _). Qed.

Lemma combined_id_of weekly monthly biannual (store : gmap nat video) v :
  id_of (combined weekly monthly biannual store).2 v = id_of store v.
Proof. by rewrite combined_store, !tag_all_id_of. Qed.

(** The tag an object carries after the three tagging loops: that of the
    last list that holds it. *)
Lemma combined_source weekly monthly biannual (store : gmap nat video) v video :
  (combined weekly monthly biannual store).2 !! v = Some video →
  ∃ d, store !! v = Some d ∧ video_id video = video_id d
       ∧ source video
         = if decide (v ∈ biannual) then Some "Last 6 Months"
           else if decide (v ∈ monthly) then Some "Last Month"
           else if decide (v ∈ weekly) then Some "Last Week"
           else source d.
Proof.
  rewrite combined_store, !tag_all_lookup.
  destruct (store !! v) as [d|]; [| done].
  intros [= <-]. exists d. split; [done |].
  destruct (decide (v ∈ biannual)), (decide (v ∈ monthly)), (decide (v ∈ weekly)); done.
Qed.

(** C9: the three periods are combined in the order weekly, monthly,
    biannual. A video whose id was already seen, in an earlier period or
    earlier in the same one, is dropped, so every id of the input occurs
    exactly once in the output, and the video kept carries the label of
    the first period that holds its id. The periods are separate lists of
    separate objects, as three separate fetches build them. *)
Theorem combined_keeps_first_source :
  (∀ weekly monthly biannual (store : gmap nat video),
     (∀ v, v ∈ weekly → (v ∉ monthly) ∧ (v ∉ biannual)) →
     (∀ v, v ∈ monthly → v ∉ biannual) →
     let selected := (combined weekly monthly biannual store).1 in
     let store' := (combined weekly monthly biannual store).2 in
     NoDup (ids store' selected)
     ∧ (∀ i, i ∈ ids store' selected ↔ i ∈ ids store (weekly ++ monthly ++ biannual))
     ∧ (∀ v video, v ∈ selected → store' !! v = Some video →
          source video = Some (first_source store weekly monthly (video_id video)))
     ∧ selected `sublist_of` (weekly ++ monthly ++ biannual))
  ∧ (let selected := (combined [0] [1; 2] [] Samples.three_videos).1 in
     let store' := (combined [0] [1; 2] [] Samples.three_videos).2 in
     selected = [0; 2]
     ∧ ids store' selected = ["v1"; "v2"]
     ∧ source <$> store' !! 0 = Some (Some "Last Week")).
Proof.
  split; [| by vm_compute].
  intros weekly monthly biannual store Hweekly Hmonthly selected store'.
  assert (Hids : ∀ l, ids store' l = ids store l).
  { intros l. apply ids_ext. intros v. apply combined_id_of. }
  subst selected. rewrite combined_firsts.
  split; [rewrite Hids; apply NoDup_ids_firsts |].
  split; [intros i; rewrite Hids, ids_firsts, elem_of_empty; tauto |].
  split; [| apply firsts_sublist].
  intros v video Hin Hvideo.
  destruct (combined_source _ _ _ _ _ _ Hvideo) as (d & Hd & Hid & Hsrc).
  rewrite Hsrc, Hid. clear Hsrc Hid Hvideo.
  assert (Hidv : id_of store v = Some (video_id d)) by (unfold id_of; by rewrite Hd).
  unfold first_source.
  rewrite !firsts_app in Hin. apply elem_of_app in Hin as [Hin | Hin].
  - apply elem_of_firsts in Hin as [Hv _].
    destruct (Hweekly v Hv) as [Hnm Hnb].
    rewrite (decide_False (P := v ∈ biannual)), (decide_False (P := v ∈ monthly)),
      (decide_True (P := v ∈ weekly)) by done.
    rewrite decide_True; [done |]. apply elem_of_ids. by exists v.
  - apply elem_of_app in Hin as [Hin | Hin].
    + apply elem_of_firsts in Hin as (Hv & i & Hi & Hseen).
      assert (i = video_id d) as -> by congruence.
      rewrite not_elem_of_union, elem_of_list_to_set in Hseen. destruct Hseen as [_ Hnw].
      rewrite (decide_False (P := v ∈ biannual)), (decide_True (P := v ∈ monthly))
        by (done || by apply Hmonthly).
      rewrite decide_False by done.
      rewrite decide_True; [done |]. apply elem_of_ids. by exists v.
    + apply elem_of_firsts in Hin as (Hv & i & Hi & Hseen).
      assert (i = video_id d) as -> by congruence.
      rewrite !not_elem_of_union, !elem_of_list_to_set in Hseen.
      destruct Hseen as [[_ Hnw] Hnm].
      rewrite (decide_True (P := v ∈ biannual)) by done.
      by rewrite !decide_False by done.
Qed.

Lemma combined_keeps_first_source_witness :
  (∀ v, v ∈ [0] → (v ∉ [1; 2]) ∧ (v ∉ @nil nat))
  ∧ (∀ v, v ∈ [1; 2] → v ∉ @nil nat)
  ∧ NoDup (ids (combined [0] [1; 2] [] Samples.three_videos).2
               (combined [0] [1; 2] [] Samples.three_videos).1)
  ∧ ∀ v video,
      v ∈ (combined [0] [1; 2] [] Samples.three_videos).1 →
      (combined [0] [1; 2] [] Samples.three_videos).2 !! v = Some video →
      source video
      = Some (first_source Samples.three_videos [0] [1; 2] (video_id video)).
Proof.
  assert (H1 : ∀ v, v ∈ [0] → (v ∉ [1; 2]) ∧ (v ∉ @nil nat)).
  { intros v ->%list_elem_of_singleton. split.
    - intros [?|[?|?%elem_of_nil]%elem_of_cons]%elem_of_cons; done.
    - apply not_elem_of_nil. }
  assert (H2 : ∀ v, v ∈ [1; 2] → v ∉ @nil nat).
  { intros v _. apply not_elem_of_nil. }
  split; [exact H1 |]. split; [exact H2 |].
  destruct (proj1 combined_keeps_first_source [0] [1; 2] [] Samples.three_videos H1 H2)
    as (Hnodup & _ & Hsource & _).
  split; [exact Hnodup | exact Hsource].
Defined.

(** Why the periods must be separate objects: a dict held by two lists is
    tagged twice, and keeps the later label. *)
Example shared_object_takes_last_tag :
  (combined [0] [0; 2] [] Samples.three_videos).1 = [0; 2]
  ∧ source <$> (combined [0] [0; 2] [] Samples.three_videos).2 !! 0
    = Some (Some "Last Month").
Proof. by vm_compute. Qed.

End CombinedFacts.

(** * Further properties of the code *)

(** ** Counters *)

Section CounterFacts.
Import PyDict.
Context {K : Type} `{EqDecision K}.

Lemma values_set_sum (c : list (K * nat)) k n :
  sum_list (values (set c k n)) + count c k = sum_list (values c) + n.
Proof.
  unfold values, count, fmap. induction c as [|[k0 n0] c IH]; simpl.
  - lia.
  - destruct (decide (k = k0)) as [->|Hne]; simpl in *; lia.
Qed.

Lemma sum_foldl_incr (c : list (K * nat)) l :
  sum_list (values (foldl incr c l)) = sum_list (values c) + length l.
Proof.
  revert c. induction l as [|a l IH]; intros c; simpl; [lia |].
  rewrite IH. unfold incr.
  pose proof (values_set_sum c a (S (count c a))). lia.
Qed.

Lemma keys_set_eq {V} (d : list (K * V)) k v :
  keys (set d k v) = if decide (k ∈ keys d) then keys d else keys d ++ [k].
Proof.
  unfold keys. induction d as [|[k0 v0] d IH].
  - destruct (decide (k ∈ (@nil (K * V)).*1)) as [Hin|_]; [| done].
    by apply elem_of_nil in Hin.
  - cbn [set]. rewrite fmap_cons. cbn [fst].
    destruct (decide (k = k0)) as [->|Hne].
    + rewrite fmap_cons. cbn [fst].
      destruct (decide (k0 ∈ k0 :: d.*1)) as [_|Hnin]; [done |].
      destruct Hnin. by left.
    + rewrite fmap_cons, IH. cbn [fst].
      destruct (decide (k ∈ d.*1)) as [Hin|Hnin];
        destruct (decide (k ∈ k0 :: d.*1)) as [Hin'|Hnin']; try done.
      * destruct Hnin'. by right.
      * apply elem_of_cons in Hin' as [?|?]; done.
Qed.

Lemma filter_filter_ne (P : K → Prop) `{!∀ x, Decision (P x)} a (l : list K) :
  (∀ x, P x → x ≠ a) →
  filter P (filter (λ y, y ≠ a) l) = filter P l.
Proof.
  intros HP. induction l as [|x l IH]; [done |].
  rewrite !filter_cons. destruct (decide (x ≠ a)) as [Hx|Hx].
  - rewrite filter_cons. destruct (decide (P x)); by rewrite IH.
  - rewrite IH. destruct (decide (P x)) as [HPx|]; [| done].
    destruct Hx. by apply HP.
Qed.

Lemma filter_not_in_app (c : list K) a (l : list K) :
  filter (λ x, x ∉ c ++ [a]) l = filter (λ x, x ∉ c) (filter (λ y, y ≠ a) l).
Proof.
  induction l as [|x l IH]; [done |].
  rewrite !filter_cons. destruct (decide (x ≠ a)) as [Hx|Hx].
  - rewrite filter_cons.
    destruct (decide (x ∉ c ++ [a])) as [H1|H1];
      destruct (decide (x ∉ c)) as [H2|H2]; rewrite IH; try done.
    + destruct H2. intros Hc. apply H1, elem_of_app. by left.
    + destruct H1. intros [?|?%list_elem_of_singleton]%elem_of_app; done.
  - destruct (decide (x ∉ c ++ [a])) as [H1|H1]; [| done].
    destruct H1. apply elem_of_app. right. apply list_elem_of_singleton.
    by apply dec_stable.
Qed.

Lemma keys_foldl_incr_eq (c : list (K * nat)) l :
  keys (foldl incr c l) = keys c ++ filter (λ x, x ∉ keys c) (first_occurrences l).
Proof.
  revert c. induction l as [|a l IH]; intros c.
  - simpl. by rewrite app_nil_r.
  - cbn [foldl first_occurrences]. rewrite IH. unfold incr. rewrite keys_set_eq.
    rewrite filter_cons.
    destruct (decide (a ∈ keys c)) as [Hin|Hnin];
      destruct (decide (a ∉ keys c)) as [Hn|Hn]; try done.
    + f_equal. symmetry. apply filter_filter_ne. by intros x Hx ->.
    + rewrite <- app_assoc. cbn [app]. do 2 f_equal. apply filter_not_in_app.
Qed.

Lemma values_foldl_incr_pos (c : list (K * nat)) l :
  Forall (λ n, 0 < n) (values c) → Forall (λ n, 0 < n) (values (foldl incr c l)).
Proof.
  revert c. induction l as [|a l IH]; intros c Hc; [done |].
  apply IH. unfold incr. generalize (S (count c a)), (Nat.lt_0_succ (count c a)).
  intros n Hn. unfold values in *. induction c as [|[k0 n0] c IHc]; simpl.
  - by repeat constructor.
  - apply Forall_cons_1 in Hc as [Hn0 Hc].
    destruct (decide (a = k0)); simpl; constructor; auto.
Qed.

End CounterFacts.

(** ** The tables of [extract_themes] *)

Section ThemeTables.
Import PyDict ThemesTracker.

Lemma length_bigrams {A} (l : list A) : length (bigrams l) = length l - 1.
Proof.
  unfold bigrams. rewrite length_zip_with. destruct l as [|a l]; [done |].
  cbn [tail length]. lia.
Qed.

Lemma filter_not_in_nil `{EqDecision K} (l : list K) : filter (λ x, x ∉ @nil K) l = l.
Proof.
  induction l as [|x l IH]; [done |].
  rewrite filter_cons. destruct (decide (x ∉ @nil K)) as [_|Hn]; [by rewrite IH |].
  destruct Hn. apply not_elem_of_nil.
Qed.

(** X1: the word table is a faithful count of the tokens of all the items:
    each word has as its count the number of its occurrences, every count
    is at least 1, and the counts add up to the number of tokens. *)
Theorem word_table_is_faithful_count (token_lists : list (list string)) :
  (∀ w, count (count_themes token_lists).1 w = occurrences w (mjoin token_lists))
  ∧ Forall (λ n, 1 ≤ n) (values (count_themes token_lists).1)
  ∧ sum_list (values (count_themes token_lists).1) = length (mjoin token_lists).
Proof.
  unfold count_themes. cbn [fst]. rewrite foldl_extend. cbn [app].
  split; [intros w; apply count_Counter |].
  split.
  - unfold Counter. by apply values_foldl_incr_pos.
  - unfold Counter. by rewrite sum_foldl_incr.
Qed.

(** X2: the counts of the bigram table add up to one less than the number
    of tokens of all the items together (to 0 when there is no token). *)
Theorem bigram_table_total (token_lists : list (list string)) :
  sum_list (values (count_themes token_lists).2) = length (mjoin token_lists) - 1.
Proof.
  unfold count_themes. cbn [snd]. rewrite foldl_extend. cbn [app].
  unfold Counter. rewrite sum_foldl_incr, length_bigrams. simpl. lia.
Qed.

(** X3: the keys of the word table are the distinct tokens in the order of
    their first occurrence over all the items, each once. *)
Theorem word_table_keys_in_first_occurrence_order (token_lists : list (list string)) :
  keys (count_themes token_lists).1 = first_occurrences (mjoin token_lists)
  ∧ NoDup (keys (count_themes token_lists).1).
Proof.
  unfold count_themes. cbn [fst]. rewrite foldl_extend. cbn [app].
  split; [| apply NoDup_keys_Counter].
  unfold Counter. rewrite keys_foldl_incr_eq. apply filter_not_in_nil.
Qed.

End ThemeTables.

(** ** The analysis of one frame *)

Section FrameAnalysis.
Import PyStr PyDict ThemesTracker.

Variable word_tokenize : string → result (list string).
Variable lemmatize : string → result string.
Variable stop_words : gset string.
Variable polarity : string → result Q.

Lemma extract_themes_empty df :
  rows df = [] → extract_themes word_tokenize lemmatize stop_words df = (df, ([], [])).
Proof. intros Hrows. unfold extract_themes, column. by rewrite Hrows. Qed.

Lemma extract_themes_full df :
  rows df ≠ [] →
  extract_themes word_tokenize lemmatize stop_words df
  = (DataFrame (rows df) (Some (full_text_of <$> rows df)),
     count_themes ((λ p, preprocess_text word_tokenize lemmatize stop_words
                           (PyStr (full_text_of p))) <$> rows df)).
Proof.
  intros Hrows. unfold extract_themes, column.
  destruct (rows df) as [|p ps] eqn:Hps; [done |].
  assert (Hzip : zip_with (λ t x, t +:+ " " +:+ default EmptyString x)
                   (title <$> p :: ps) (text <$> p :: ps)
                 = full_text_of <$> p :: ps).
  { clear. generalize (p :: ps). intros l. induction l as [|q l IH]; [done |].
    rewrite !fmap_cons. cbn [zip_with]. by rewrite IH. }
  unfold mbind, result_bind. rewrite Hzip. by rewrite <- list_fmap_compose.
Qed.

(** X4: for a frame without rows the handlers take over: reading the title
    column fails, so [extract_themes] returns two empty tables and adds no
    column, and [analyze_sentiment], which finds no column to read, returns
    an empty series, whose mean is NaN. *)
Theorem empty_frame_is_handled df :
  rows df = [] → full_text df = None →
  extract_themes word_tokenize lemmatize stop_words df = (df, ([], []))
  ∧ analyze_sentiment polarity
      (extract_themes word_tokenize lemmatize stop_words df).1 = []
  ∧ series_mean (analyze_sentiment polarity
      (extract_themes word_tokenize lemmatize stop_words df).1) = NaN.
Proof.
  intros Hrows Hcol. rewrite (extract_themes_empty df Hrows). cbn [fst].
  assert (Hs : analyze_sentiment polarity df = []).
  { unfold analyze_sentiment, column_full_text, len. by rewrite Hcol, Hrows. }
  by rewrite Hs.
Qed.

Lemma elem_of_foldl_extend {A} (ls : list (list A)) x :
  x ∈ mjoin ls ↔ ∃ l, l ∈ ls ∧ x ∈ l.
Proof.
  induction ls as [|l ls IH].
  - change (mjoin []) with (@nil A). rewrite elem_of_nil.
    split; [done | intros (l & Hl & _); by apply elem_of_nil in Hl].
  - change (mjoin (l :: ls)) with (l ++ mjoin ls). rewrite elem_of_app, IH. split.
    + intros [Hx | (l' & Hl' & Hx)]; [exists l | exists l'];
        (split; [| done]); [by left | by right].
    + intros (l' & [->|Hl']%elem_of_cons & Hx); [by left | right; by exists l'].
Qed.

(** X5: the words of the word table of a frame are exactly the tokens that
    [preprocess_text] returns for the analysis text of one of its posts,
    the title, a space and the text, a missing text counting as empty. *)
Theorem word_table_holds_the_post_tokens df w :
  w ∈ keys (extract_themes word_tokenize lemmatize stop_words df).2.1
  ↔ ∃ p, p ∈ rows df
         ∧ w ∈ preprocess_text word_tokenize lemmatize stop_words (PyStr (full_text_of p)).
Proof.
  destruct (decide (rows df = [])) as [Hrows|Hrows].
  - rewrite (extract_themes_empty df Hrows), Hrows. cbn [fst snd].
    change (keys (@nil (string * nat))) with (@nil string).
    split; [by intros ?%elem_of_nil | intros (p & Hp%elem_of_nil & _); done].
  - rewrite (extract_themes_full df Hrows). cbn [fst snd].
    unfold count_themes. cbn [fst]. rewrite foldl_extend. cbn [app].
    rewrite keys_Counter, elem_of_foldl_extend. split.
    + intros (l & Hl & Hw). apply list_elem_of_fmap in Hl as (p & -> & Hp). by exists p.
    + intros (p & Hp & Hw). eexists. split; [| exact Hw].
      apply list_elem_of_fmap. by exists p.
Qed.

(** X6: on a frame as it was fetched, [extract_themes] keeps the rows and,
    when there are rows, adds one analysis text per row; [analyze_sentiment]
    then returns exactly one score per row, whether the scoring succeeded
    or not. *)
Theorem one_score_per_post df :
  full_text df = None →
  rows (extract_themes word_tokenize lemmatize stop_words df).1 = rows df
  ∧ (rows df ≠ [] →
     full_text (extract_themes word_tokenize lemmatize stop_words df).1
     = Some (full_text_of <$> rows df))
  ∧ length (analyze_sentiment polarity
              (extract_themes word_tokenize lemmatize stop_words df).1)
    = length (rows df).
Proof.
  intros Hcol. destruct (decide (rows df = [])) as [Hrows|Hrows].
  - rewrite (extract_themes_empty df Hrows). cbn [fst]. split; [done |]. split; [done |].
    unfold analyze_sentiment, column_full_text, len. by rewrite Hcol, Hrows.
  - rewrite (extract_themes_full df Hrows). cbn [fst rows full_text].
    split; [done |]. split; [done |].
    rewrite (analyze_sentiment_texts polarity _ (full_text_of <$> rows df)) by done.
    unfold len. cbn [rows].
    destruct (mapM polarity (full_text_of <$> rows df)) as [k|e] eqn:Hk.
    + apply mapM_Ok, Forall2_length in Hk. by rewrite length_fmap in Hk.
    + apply length_replicate.
Qed.

End FrameAnalysis.

(** ** Scores and their mean *)

From Stdlib Require Import Lqa.

Section Scores.
Import PyStr PyDict ThemesTracker Main.

Variable word_tokenize : string → result (list string).
Variable lemmatize : string → result string.
Variable stop_words : gset string.
Variable polarity : string → result Q.

Lemma inject_length_succ {A} (x : A) (l : list A) :
  (inject_Z (Z.of_nat (length (x :: l))) == 1 + inject_Z (Z.of_nat (length l)))%Q.
Proof.
  cbn [length]. rewrite Nat2Z.inj_succ, <- Z.add_1_l, inject_Z_plus. reflexivity.
Qed.

Lemma Qsum_cons x l : Qsum (x :: l) = (x + Qsum l)%Q.
Proof. reflexivity. Qed.

Lemma Qsum_range (l : list Q) :
  Forall is_polarity l →
  (- inject_Z (Z.of_nat (length l)) <= Qsum l)%Q
  ∧ (Qsum l <= inject_Z (Z.of_nat (length l)))%Q.
Proof.
  induction 1 as [|x l [Hlo Hhi] _ [IHlo IHhi]].
  - split; apply Qle_refl.
  - rewrite Qsum_cons, inject_length_succ. split; lra.
Qed.

Lemma inject_length_pos {A} (x : A) (l : list A) :
  (0 < inject_Z (Z.of_nat (length (x :: l))))%Q.
Proof.
  rewrite inject_length_succ.
  assert (0 <= inject_Z (Z.of_nat (length l)))%Q; [| lra].
  change 0%Q with (inject_Z 0). rewrite <- Zle_Qle. lia.
Qed.

Lemma series_mean_range (s : list Q) m :
  Forall is_polarity s → series_mean s = Float m → is_polarity m.
Proof.
  intros Hs Hm. destruct s as [|x s]; [done |].
  injection Hm as <-.
  destruct (Qsum_range _ Hs) as [Hlo Hhi].
  pose proof (inject_length_pos x s) as Hpos.
  rewrite Qsum_cons in Hlo, Hhi. cbn [length] in *.
  split.
  - apply Qle_shift_div_l; [done | lra].
  - apply Qle_shift_div_r; [done | lra].
Qed.

Lemma analyze_sentiment_range df :
  (∀ s q, polarity s = Ok q → is_polarity q) →
  Forall is_polarity (analyze_sentiment polarity df).
Proof.
  intros Hpol.
  assert (Hzero : ∀ n, Forall is_polarity (replicate n 0%Q)).
  { intros n. apply Forall_replicate. split; lra. }
  destruct (full_text df) as [texts|] eqn:Hcol.
  - rewrite (analyze_sentiment_texts polarity df texts Hcol).
    destruct (mapM polarity texts) as [k|e] eqn:Hk; [| apply Hzero].
    apply mapM_Ok in Hk. clear Hcol.
    induction Hk as [|t q ts qs Hq _ IH]; constructor; [by apply (Hpol t) | done].
  - unfold analyze_sentiment, column_full_text. rewrite Hcol. apply Hzero.
Qed.

(** X7: when every polarity the scorer returns lies between -1 and 1, so
    does every score of [analyze_sentiment], the zeros of its handler
    included, and so does the mean of a source whenever it is a number. *)
Theorem sentiment_stays_in_range df :
  (∀ s q, polarity s = Ok q → is_polarity q) →
  Forall is_polarity (analyze_sentiment polarity df)
  ∧ (∀ m, series_mean (analyze_sentiment polarity df) = Float m → is_polarity m).
Proof.
  intros Hpol. pose proof (analyze_sentiment_range df Hpol) as Hs.
  split; [done |]. intros m. by apply series_mean_range.
Qed.

Lemma Qsum_replicate_zero n : (Qsum (replicate n 0%Q) == 0)%Q.
Proof.
  induction n as [|n IH]; [reflexivity |].
  cbn [replicate]. rewrite Qsum_cons, IH. lra.
Qed.

(** X8: when the scoring of any post of a frame fails, the mean sentiment
    recorded for that source is 0, and the display labels it "Negative":
    the label is "Positive" only above 0. *)
Theorem failed_scoring_is_shown_negative df :
  Exists (λ p, ∃ e, polarity (full_text_of p) = Raise e) (rows df) →
  ∃ r q,
    analyze_subreddit word_tokenize lemmatize stop_words polarity df = Some r
    ∧ sentiment r = Float q ∧ (q == 0)%Q
    ∧ sentiment_label (sentiment r) = "Negative".
Proof.
  intros Hfail.
  assert (Hrows : rows df ≠ []) by (intros Hnil; rewrite Hnil in Hfail; inversion Hfail).
  unfold analyze_subreddit, empty. rewrite bool_decide_eq_false_2 by done. cbn [negb].
  rewrite (extract_themes_full word_tokenize lemmatize stop_words df Hrows).
  rewrite (analyze_sentiment_texts polarity _ (full_text_of <$> rows df)) by done.
  destruct (mapM_Raise polarity (full_text_of <$> rows df)) as [e ->].
  { apply Exists_fmap. exact Hfail. }
  unfold len. cbn [rows].
  destruct (rows df) as [|p ps]; [done |].
  eexists _, _. split; [reflexivity |]. cbn [sentiment].
  split; [reflexivity |].
  assert (Hq : (Qsum (replicate (length (p :: ps)) 0%Q)
                / inject_Z (Z.of_nat (length (replicate (length (p :: ps)) 0%Q))) == 0)%Q).
  { rewrite Qsum_replicate_zero. unfold Qdiv. lra. }
  split; [exact Hq |].
  cbn [sentiment_label series_mean replicate length].
  cbn [replicate length] in Hq.
  assert (Hle : Qle_bool (Qsum (0%Q :: replicate (length ps) 0%Q)
                 / inject_Z (Z.of_nat (S (length (replicate (length ps) 0%Q))))) 0 = true).
  { apply Qle_bool_iff. rewrite Hq. apply Qle_refl. }
  by rewrite Hle.
Qed.

End Scores.

(** ** Failures of the tokenizer and the lemmatizer *)

Section NormalizerFailures.
Import PyStr PyDict ThemesTracker.

Variable word_tokenize : string → result (list string).
Variable lemmatize : string → result string.
Variable stop_words : gset string.

Lemma bind_Ok {A B} (f : A → result B) (a : A) : (Ok a ≫= f) = f a.
Proof. reflexivity. Qed.

(** X9: [preprocess_text] is all or nothing: when the tokenizer fails, or
    the lemmatizer fails on one token that passed the filter, the whole
    text gives the empty list; the lemmatizer is never asked about a token
    the filter dropped, so when it succeeds on every kept token the result
    holds one lemma for each kept token, in order. *)
Theorem normalizer_is_all_or_nothing (text : pyobj) :
  ((∃ e, word_tokenize (lower (str text)) = Raise e) →
   preprocess_text word_tokenize lemmatize stop_words text = [])
  ∧ (∀ tokens,
       word_tokenize (lower (str text)) = Ok tokens →
       Exists (λ t, keep_token stop_words t = true ∧ ∃ e, lemmatize t = Raise e) tokens →
       preprocess_text word_tokenize lemmatize stop_words text = [])
  ∧ (∀ tokens,
       word_tokenize (lower (str text)) = Ok tokens →
       str text ≠ EmptyString → isspace (str text) = false →
       Forall (λ t, keep_token stop_words t = true → ∃ l, lemmatize t = Ok l) tokens →
       Forall2 (λ t l, lemmatize t = Ok l)
               (filter (λ t, keep_token stop_words t = true) tokens)
               (preprocess_text word_tokenize lemmatize stop_words text)).
Proof.
  unfold preprocess_text. rewrite preprocess_text_body_str.
  split; [| split].
  - intros [e He]. rewrite He. by destruct (_ || _).
  - intros tokens Htok Hfail. rewrite Htok.
    destruct (_ || _); [done |]. rewrite bind_Ok.
    lazymatch goal with
    | |- context [mapM lemmatize ?l] => destruct (mapM_Raise lemmatize l) as [e He]
    end; [| by rewrite He].
    apply Exists_exists in Hfail as (t & Ht & Hkeep & Hraise).
    apply Exists_exists. exists t. split; [| done].
    apply list_elem_of_filter. by split.
  - intros tokens Htok Hne Hsp Hall. rewrite Htok, Hsp.
    rewrite bool_decide_eq_false_2 by done. cbn [orb]. rewrite bind_Ok.
    lazymatch goal with
    | |- context [mapM lemmatize ?l] => destruct (mapM_total lemmatize l) as [k Hk]
    end.
    { apply Forall_forall. intros t [Hkeep Ht]%list_elem_of_filter.
      rewrite Forall_forall in Hall. by apply Hall. }
    rewrite Hk. apply mapM_Ok in Hk. exact Hk.
Qed.

End NormalizerFailures.

(** ** What [main] displays *)

From stdpp Require Import sorting.

Section SortedFacts.
Import PySort.
Context {A : Type} (key : A → Z).

Lemma insert_desc_perm (x : A) l : insert_desc key x l ≡ₚ x :: l.
Proof.
  induction l as [|y l IH]; [done |].
  cbn [insert_desc]. destruct (key y <=? key x)%Z; [done |].
  rewrite IH. apply Permutation_swap.
Qed.

Lemma sorted_desc_perm (l : list A) : sorted_desc key l ≡ₚ l.
Proof.
  unfold sorted_desc. induction l as [|x l IH]; [done |].
  cbn [foldr]. by rewrite insert_desc_perm, IH.
Qed.

Lemma insert_desc_sorted (x : A) l :
  StronglySorted (λ a b, (key b ≤ key a)%Z) l →
  StronglySorted (λ a b, (key b ≤ key a)%Z) (insert_desc key x l).
Proof.
  induction l as [|y l IH]; intros Hl.
  - repeat constructor.
  - apply StronglySorted_cons in Hl as [Hy Hl]. cbn [insert_desc].
    destruct (key y <=? key x)%Z eqn:Hle.
    + apply Z.leb_le in Hle. apply StronglySorted_cons. split.
      * constructor; [done |]. eapply Forall_impl; [exact Hy |].
        intros z Hz. simpl in *. lia.
      * by apply StronglySorted_cons.
    + apply Z.leb_gt in Hle. apply StronglySorted_cons. split; [| by apply IH].
      rewrite insert_desc_perm. constructor; [lia | done].
Qed.

Lemma sorted_desc_sorted (l : list A) :
  StronglySorted (λ a b, (key b ≤ key a)%Z) (sorted_desc key l).
Proof.
  unfold sorted_desc. induction l as [|x l IH]; [constructor |].
  cbn [foldr]. by apply insert_desc_sorted.
Qed.

Lemma insert_desc_filter (k : Z) (x : A) l :
  filter (λ z, key z = k) (insert_desc key x l) = filter (λ z, key z = k) (x :: l).
Proof.
  induction l as [|y l IH]; [done |].
  cbn [insert_desc]. destruct (key y <=? key x)%Z eqn:Hle; [done |].
  apply Z.leb_gt in Hle.
  rewrite (filter_cons _ y), IH, !(filter_cons _ x), (filter_cons _ y).
  destruct (decide (key x = k)) as [Hx|Hx]; destruct (decide (key y = k)) as [Hy|Hy];
    try done. lia.
Qed.

Lemma sorted_desc_filter (k : Z) (l : list A) :
  filter (λ z, key z = k) (sorted_desc key l) = filter (λ z, key z = k) l.
Proof.
  unfold sorted_desc. induction l as [|x l IH]; [done |].
  cbn [foldr]. rewrite insert_desc_filter, !filter_cons, IH. done.
Qed.

Lemma sorted_take_dominates (R : A → A → Prop) n (l : list A) a b :
  StronglySorted R l → a ∈ take n l → b ∈ l → b ∉ take n l → R a b.
Proof.
  intros Hl Ha Hb Hnb. rewrite <- (take_drop n l) in Hl, Hb.
  apply elem_of_app in Hb as [Hb | Hb]; [done |].
  apply StronglySorted_app in Hl as (Hcross & _ & _). by apply Hcross.
Qed.

End SortedFacts.

Section Display.
Import PyDict ThemesTracker PySort Main.

Lemma take_sorted_by_count {K} n (freq : list (K * nat)) :
  let shown := take n (sorted_desc by_count freq) in
  length shown = n `min` length freq
  ∧ shown ⊆ freq
  ∧ StronglySorted (λ a b, b.2 ≤ a.2) shown
  ∧ (∀ a b, a ∈ shown → b ∈ freq → b ∉ shown → b.2 ≤ a.2)
  ∧ (∀ c, filter (λ x, x.2 = c) shown `prefix_of` filter (λ x, x.2 = c) freq).
Proof.
  intros shown.
  pose proof (sorted_desc_perm by_count freq) as Hperm.
  pose proof (sorted_desc_sorted by_count freq) as Hsorted.
  assert (Hnat : StronglySorted (λ a b : K * nat, b.2 ≤ a.2) (sorted_desc by_count freq)).
  { clear -Hsorted. induction Hsorted as [|a l _ IH Ha]; constructor; [done |].
    eapply Forall_impl; [exact Ha |]. unfold by_count. intros b Hb. simpl in Hb. lia. }
  split; [subst shown; by rewrite length_take, Hperm |].
  split.
  { intros x Hx. rewrite <- Hperm. by apply (subseteq_take n). }
  split.
  { rewrite <- (take_drop n (sorted_desc by_count freq)) in Hnat.
    by apply StronglySorted_app in Hnat as (_ & Htake & _). }
  split.
  { intros a b Ha Hb Hnb. rewrite <- Hperm in Hb.
    by apply (sorted_take_dominates (λ a b : K * nat, b.2 ≤ a.2) n
                (sorted_desc by_count freq) a b). }
  intros c.
  assert (Hfilter : filter (λ x : K * nat, x.2 = c) freq
                    = filter (λ x : K * nat, x.2 = c) (sorted_desc by_count freq)).
  { rewrite (list_filter_iff (λ x : K * nat, x.2 = c) (λ x, by_count x = Z.of_nat c) freq),
      (list_filter_iff (λ x : K * nat, x.2 = c) (λ x, by_count x = Z.of_nat c)
         (sorted_desc by_count freq));
      try (intros x; unfold by_count; lia).
    symmetry. apply sorted_desc_filter. }
  rewrite Hfilter. subst shown.
  rewrite <- (take_drop n (sorted_desc by_count freq)) at 2.
  rewrite filter_app. by apply prefix_app_r.
Qed.

(** X10: the display of a source shows ten entries of its word table, or
    all of them when there are fewer, and five of its bigram table. They
    stand in descending order of count, and no entry left out has a higher
    count than an entry shown. *)
Theorem display_shows_the_most_frequent (results : sub_results) :
  (length (top_words results) = 10 `min` length (word_freq results)
   ∧ top_words results ⊆ word_freq results
   ∧ StronglySorted (λ a b, b.2 ≤ a.2) (top_words results)
   ∧ (∀ a b, a ∈ top_words results → b ∈ word_freq results →
             b ∉ top_words results → b.2 ≤ a.2))
  ∧ (length (top_bigrams results) = 5 `min` length (bigram_freq results)
     ∧ top_bigrams results ⊆ bigram_freq results
     ∧ StronglySorted (λ a b, b.2 ≤ a.2) (top_bigrams results)
     ∧ (∀ a b, a ∈ top_bigrams results → b ∈ bigram_freq results →
               b ∉ top_bigrams results → b.2 ≤ a.2)).
Proof.
  unfold top_words, top_bigrams. split.
  - destruct (take_sorted_by_count 10 (word_freq results)) as (H1 & H2 & H3 & H4 & _).
    by repeat split.
  - destruct (take_sorted_by_count 5 (bigram_freq results)) as (H1 & H2 & H3 & H4 & _).
    by repeat split.
Qed.

(** X11: entries of equal count are displayed in the order of the table,
    which for a counter is the order of first occurrence: the sort is
    stable. *)
Theorem display_keeps_table_order_among_ties (results : sub_results) (c : nat) :
  filter (λ x, x.2 = c) (top_words results)
    `prefix_of` filter (λ x, x.2 = c) (word_freq results)
  ∧ filter (λ x, x.2 = c) (top_bigrams results)
      `prefix_of` filter (λ x, x.2 = c) (bigram_freq results).
Proof.
  unfold top_words, top_bigrams. split.
  - by destruct (take_sorted_by_count 10 (word_freq results)) as (_ & _ & _ & _ & H).
  - by destruct (take_sorted_by_count 5 (bigram_freq results)) as (_ & _ & _ & _ & H).
Qed.

End Display.

(** ** Which source the titles come from *)

Section TitleSources.
Import PyDict ThemesTracker.

Lemma titles_read_five_and_three (w0 w1 w2 w3 w4 : string) ws (b0 b1 b2 : string * string) bs :
  titles ([w0; w1; w2; w3; w4] ++ ws) ([b0; b1; b2] ++ bs)
  = titles [w0; w1; w2; w3; w4] [b0; b1; b2].
Proof. reflexivity. Qed.

(** X12: when the first source of the results has at least five words and
    three bigrams, the titles are those of that source alone: no later
    source has any part in them. *)
Theorem titles_come_from_the_first_source name (r : sub_results) rest :
  5 ≤ length (keys (word_freq r)) →
  3 ≤ length (keys (bigram_freq r)) →
  generate_titles ((name, r) :: rest) = generate_titles [(name, r)].
Proof.
  intros Hw Hb.
  rewrite !generate_titles_titles, !all_words_blocks, !all_bigrams_blocks.
  unfold values. rewrite !fmap_cons. cbn [snd fmap list_fmap].
  change (mjoin (?x :: ?l)) with (x ++ mjoin l).
  pose proof (length_take_le (keys (word_freq r)) 5 Hw) as Hlw.
  pose proof (length_take_le (keys (bigram_freq r)) 3 Hb) as Hlb.
  destruct (take 5 (keys (word_freq r))) as [|w0 [|w1 [|w2 [|w3 [|w4 [|w5 ws]]]]]];
    try discriminate Hlw.
  destruct (take 3 (keys (bigram_freq r))) as [|b0 [|b1 [|b2 [|b3 bs]]]];
    try discriminate Hlb.
  rewrite titles_read_five_and_three. symmetry. apply titles_read_five_and_three.
Qed.

End TitleSources.

(** ** Fetching and the loop over the subreddits *)

Section Sources.
Import PyDict ThemesTracker Main.

Variable word_tokenize : string → result (list string).
Variable lemmatize : string → result string.
Variable stop_words : gset string.
Variable polarity : string → result Q.
Variable top : string → string → result (list (result post)).

Local Abbreviation analyze := (analyze_subreddit word_tokenize lemmatize stop_words polarity).
Local Abbreviation analyze_frames := (analyze_all word_tokenize lemmatize stop_words polarity).
Local Abbreviation results := (all_results word_tokenize lemmatize stop_words polarity top).
Local Abbreviation suggested := (suggested_titles word_tokenize lemmatize stop_words polarity top).

Lemma fetch_rows submissions :
  rows (fetch_subreddit_posts (Ok submissions))
  = omap (λ s, match s with Ok p => Some p | Raise _ => None end) submissions.
Proof.
  unfold fetch_subreddit_posts. cbn [rows].
  assert (H : ∀ acc,
    foldl (λ posts submission,
             match submission with Ok p => posts ++ [p] | Raise _ => posts end)
          acc submissions
    = acc ++ omap (λ s, match s with Ok p => Some p | Raise _ => None end) submissions).
  { induction submissions as [|[p|e] ss IH]; intros acc; cbn [foldl omap list_omap].
    - by rewrite app_nil_r.
    - rewrite IH. by rewrite <- app_assoc.
    - apply IH. }
  apply H.
Qed.

(** X13: a submission whose fields cannot be read is skipped and changes
    nothing else: the frame is the one fetched without it. When every
    submission can be read the frame holds them all, in order; when the
    listing itself fails the frame is empty. *)
Theorem failed_submission_is_skipped :
  (∀ before after e,
     fetch_subreddit_posts (Ok (before ++ Raise e :: after))
     = fetch_subreddit_posts (Ok (before ++ after)))
  ∧ (∀ posts, fetch_subreddit_posts (Ok (Ok <$> posts)) = DataFrame posts None)
  ∧ (∀ e, fetch_subreddit_posts (Raise e) = DataFrame [] None).
Proof.
  assert (Hframe : ∀ ss, fetch_subreddit_posts (Ok ss)
                         = DataFrame (rows (fetch_subreddit_posts (Ok ss))) None)
    by done.
  split; [| split; [| done]].
  - intros before after e. rewrite (Hframe (before ++ after)), Hframe. f_equal.
    rewrite !fetch_rows, !omap_app. done.
  - intros posts. rewrite Hframe, fetch_rows. f_equal.
    induction posts as [|p posts IH]; [done |].
    rewrite fmap_cons. cbn [omap list_omap]. by rewrite IH.
Qed.

Lemma analyze_None df : rows df = [] → analyze df = None.
Proof. intros H. unfold analyze_subreddit, empty. by rewrite bool_decide_eq_true_2. Qed.

Lemma analyze_Some df : rows df ≠ [] → ∃ r, analyze df = Some r.
Proof.
  intros H. unfold analyze_subreddit, empty. rewrite bool_decide_eq_false_2 by done.
  cbn [negb]. destruct (extract_themes _ _ _ df) as [df' [wf bf]]. by eexists.
Qed.

Lemma analyze_frames_from acc (fetched : list (string * dataframe)) :
  let step := λ (all_results : list (string * sub_results)) '(subreddit, df),
                match analyze df with
                | Some r => set all_results subreddit r
                | None => all_results
                end in
  (∀ name, name ∈ keys (foldl step acc fetched)
           ↔ name ∈ keys acc ∨ ∃ df, (name, df) ∈ fetched ∧ rows df ≠ [])
  ∧ (NoDup (keys acc) → NoDup (keys (foldl step acc fetched)))
  ∧ (∀ name, name ∉ fetched.*1 → get (foldl step acc fetched) name = get acc name)
  ∧ (NoDup fetched.*1 → ∀ name df, (name, df) ∈ fetched →
       get (foldl step acc fetched) name
       = match analyze df with Some r => Some r | None => get acc name end).
Proof.
  intros step. revert acc. induction fetched as [|[s d] fetched IH]; intros acc.
  - cbn [foldl]. split; [| split; [done | split; [done |]]].
    + intros name. split; [by left |].
      intros [? | (df & Hin%elem_of_nil & _)]; done.
    + intros _ name df Hin. by apply elem_of_nil in Hin.
  - cbn [foldl]. destruct (IH (step acc (s, d))) as (Hkeys & Hnodup & Hout & Hget).
    assert (Hstep_keys : ∀ name, name ∈ keys (step acc (s, d))
                                 ↔ name ∈ keys acc ∨ (name = s ∧ rows d ≠ [])).
    { intros name. unfold step. destruct (decide (rows d = [])) as [Hd|Hd].
      - rewrite (analyze_None d Hd). split; [by left | intros [?|[_ ?]]; done].
      - destruct (analyze_Some d Hd) as [r ->]. rewrite keys_set.
        split; [intros [->|?]; [by right | by left] | intros [?|[-> _]]; [by right | by left]]. }
    assert (Hstep_get : ∀ name, name ≠ s → get (step acc (s, d)) name = get acc name).
    { intros name Hne. unfold step. destruct (analyze d); [| done].
      rewrite get_set. by destruct (decide (name = s)). }
    split; [| split; [| split]].
    + intros name. rewrite Hkeys, Hstep_keys. split.
      * intros [[?|[-> Hd]] | (df & Hin & Hdf)].
        -- by left.
        -- right. exists d. split; [by left | done].
        -- right. exists df. split; [by right | done].
      * intros [? | (df & [[= -> ->]|Hin]%elem_of_cons & Hdf)].
        -- by left; left.
        -- left. by right.
        -- right. by exists df.
    + intros Hacc. apply Hnodup. unfold step. destruct (analyze d); [| done].
      by apply NoDup_keys_set.
    + intros name Hname. rewrite fmap_cons, not_elem_of_cons in Hname.
      destruct Hname as [Hne Hname]. rewrite (Hout name Hname). by apply Hstep_get.
    + intros Hnd name df Hin. rewrite fmap_cons in Hnd.
      apply NoDup_cons in Hnd as [Hs Hnd].
      apply elem_of_cons in Hin as [[= -> ->]|Hin].
      * rewrite (Hout s Hs). unfold step. destruct (analyze d) as [r|]; [| done].
        rewrite get_set. by rewrite decide_True.
      * rewrite (Hget Hnd name df Hin).
        assert (Hne : name ≠ s).
        { intros ->. apply Hs. apply list_elem_of_fmap. by exists (s, df). }
        by rewrite (Hstep_get name Hne).
Qed.

(** X14: the results hold one entry for each subreddit whose frame has
    rows, and none for the others; when the names are distinct, each entry
    is the analysis of that subreddit's own frame, whatever the other
    frames hold. *)
Theorem each_source_is_analysed_on_its_own (fetched : list (string * dataframe)) :
  (∀ name, name ∈ keys (analyze_frames fetched)
           ↔ ∃ df, (name, df) ∈ fetched ∧ rows df ≠ [])
  ∧ NoDup (keys (analyze_frames fetched))
  ∧ (NoDup fetched.*1 → ∀ name df, (name, df) ∈ fetched →
       get (analyze_frames fetched) name = analyze df).
Proof.
  clear top.
  destruct (analyze_frames_from [] fetched) as (Hkeys & Hnodup & _ & Hget).
  unfold analyze_all. split; [| split].
  - intros name. rewrite (Hkeys name). change (keys []) with (@nil string).
    rewrite elem_of_nil. tauto.
  - apply Hnodup. constructor.
  - intros Hnd name df Hin. rewrite (Hget Hnd name df Hin).
    by destruct (analyze df).
Qed.

(** X15: a subreddit whose listing fails gets no entry in the results and
    does not disturb the others: with distinct names, every selected
    subreddit has the analysis of what was fetched for it; when nothing was
    fetched for any, no titles are generated. *)
Theorem failed_fetch_contributes_nothing (subreddits : list string) (time_filter : string) :
  (∀ s e, top s time_filter = Raise e → s ∉ keys (results subreddits time_filter))
  ∧ (NoDup subreddits → ∀ s, s ∈ subreddits →
       get (results subreddits time_filter) s
       = analyze (fetch_subreddit_posts (top s time_filter)))
  ∧ ((∀ s, s ∈ subreddits → rows (fetch_subreddit_posts (top s time_filter)) = []) →
     suggested subreddits time_filter = None).
Proof.
  unfold suggested_titles, all_results.
  set (fetched := (λ subreddit, (subreddit, fetch_subreddit_posts (top subreddit time_filter)))
                    <$> subreddits).
  destruct (each_source_is_analysed_on_its_own fetched) as (Hkeys & _ & Hget).
  assert (Hnames : fetched.*1 = subreddits).
  { subst fetched. rewrite <- list_fmap_compose. apply list_fmap_id. }
  split; [| split].
  - intros s e He Hin. apply Hkeys in Hin as (df & Hdf & Hrows).
    subst fetched. apply list_elem_of_fmap in Hdf as (s' & [= -> ->] & _).
    by rewrite He in Hrows.
  - intros Hnd s Hs. apply Hget; [by rewrite Hnames |].
    subst fetched. apply list_elem_of_fmap. by exists s.
  - intros Hempty.
    destruct (analyze_frames fetched) as [|[name r] rs] eqn:Hres; [done |].
    assert (Hin : name ∈ keys ((name, r) :: rs)) by (by left).
    apply Hkeys in Hin as (df & Hdf & Hrows).
    subst fetched. apply list_elem_of_fmap in Hdf as (s' & [= -> ->] & Hs').
    by rewrite (Hempty _ Hs') in Hrows.
Qed.

End Sources.

(** ** More on the video classifier *)

Section ClassifierMore.
Import PyStr VideoContext.

Lemma first_match_label rs default text :
  first_match rs default text ∈ rs.*2 ++ [default].
Proof.
  induction rs as [|[pat label] rs IH]; cbn [first_match].
  - by left.
  - rewrite fmap_cons. cbn [snd app]. destruct (re_search pat text); [by left | by right].
Qed.

(** X16: the label is always one of the eleven labels of the code: the ten
    of the rules or "General spiritual content". *)
Theorem context_is_a_known_label title description :
  generate_video_context title description ∈ context_labels.
Proof. rewrite generate_video_context_first_match. apply first_match_label. Qed.

Lemma classified_text_lower title description :
  classified_text title description = lower (title +:+ upto 200 description).
Proof. unfold classified_text. by rewrite lower_app. Qed.

(** X17: the label depends only on the lowercased concatenation of the
    title and the first 200 characters of the description: what follows
    the 200th character has no part in it, and since nothing separates
    title and description a keyword may start in one and end in the other. *)
Theorem context_depends_on_concatenation title description title' description' :
  lower (title +:+ upto 200 description) = lower (title' +:+ upto 200 description') →
  generate_video_context title description = generate_video_context title' description'.
Proof.
  intros Heq.
  by rewrite !generate_video_context_first_match, !classified_text_lower, Heq.
Qed.

Lemma prefix_app_l p a b :
  String.prefix p a = true → String.prefix p (a +:+ b) = true.
Proof.
  revert a. induction p as [|c p IH]; intros [|x a] H; try done.
  { by destruct b. }
  change (String x a +:+ b) with (String x (a +:+ b)). simpl in *.
  destruct (Ascii.ascii_dec c x); [by apply IH | done].
Qed.

Lemma contains_app_l p a b : contains p a = true → contains p (a +:+ b) = true.
Proof.
  induction a as [|x a IH]; intros H.
  - simpl in H. destruct p; [| done]. by destruct b.
  - change (String x a +:+ b) with (String x (a +:+ b)).
    cbn [contains] in *. apply orb_prop in H as [H|H].
    + change (String x (a +:+ b)) with (String x a +:+ b).
      by rewrite (prefix_app_l _ _ _ H).
    + rewrite (IH H). apply orb_true_r.
Qed.

Lemma contains_app_r p a b : contains p b = true → contains p (a +:+ b) = true.
Proof.
  intros H. induction a as [|x a IH]; [done |].
  change (String x a +:+ b) with (String x (a +:+ b)).
  cbn [contains]. rewrite IH. apply orb_true_r.
Qed.

(** X19: the first rule has the last word: a title or a description
    prefix that mentions meditation or mindfulness, in any case, is
    labelled "Meditation/Mindfulness practice" whatever other keywords the
    text holds. *)
Theorem meditation_wins title description keyword :
  keyword = "meditation" ∨ keyword = "mindfulness" →
  contains keyword (lower title) = true
  ∨ contains keyword (lower (upto 200 description)) = true →
  generate_video_context title description = "Meditation/Mindfulness practice".
Proof.
  intros Hkey Hin. rewrite generate_video_context_first_match.
  assert (Htext : contains keyword (classified_text title description) = true).
  { unfold classified_text. destruct Hin; [by apply contains_app_l | by apply contains_app_r]. }
  unfold rules. cbn [first_match].
  assert (Hsearch : re_search "meditation|mindfulness" (classified_text title description)
                    = contains "meditation" (classified_text title description)
                      || (contains "mindfulness" (classified_text title description)
                          || false)) by reflexivity.
  rewrite Hsearch. destruct Hkey as [-> | ->]; rewrite Htext; [done |].
  by rewrite orb_true_r.
Qed.

End ClassifierMore.

(** ** Cut texts *)

Section Cuts.
Import PyStr VideoContext YouTube.

Lemma length_app_string (a b : string) :
  String.length (a +:+ b) = String.length a + String.length b.
Proof.
  induction a as [|c a IH]; [done |].
  change (String c a +:+ b) with (String c (a +:+ b)). simpl. by rewrite IH.
Qed.

Lemma length_upto n s : String.length (upto n s) = n `min` String.length s.
Proof.
  unfold upto. revert n. induction s as [|c s IH]; intros [|n]; simpl; try done.
  by rewrite IH.
Qed.

Lemma upto_app n a b : String.length a = n → upto n (a +:+ b) = a.
Proof.
  unfold upto. revert n. induction a as [|c a IH]; intros n Hn.
  - simpl in Hn. subst n. by destruct b.
  - simpl in Hn. subst n. change (String c a +:+ b) with (String c (a +:+ b)).
    simpl. f_equal. by apply IH.
Qed.

(** X20: a text cut as [s[:n] + "..."] is never longer than [n + 3]
    characters, keeps the first [n] characters of the text and is the text
    itself when that has at most [n] characters. The description tested by
    the classifier is such a cut at 200, so at most 203 characters long,
    and the context put in the prompt one at 10000. *)
Theorem cut_text_is_bounded :
  (∀ n s, String.length (ellipsize n s) ≤ n + 3
          ∧ upto n (ellipsize n s) = upto n s
          ∧ (String.length s ≤ n → ellipsize n s = s))
  ∧ (∀ description, String.length (brief_desc description) ≤ 203)
  ∧ (∀ cleaned, String.length (philosophy_context cleaned) ≤ 100 * 100 + 3).
Proof.
  assert (Hcut : ∀ n s, String.length (ellipsize n s) ≤ n + 3
                        ∧ upto n (ellipsize n s) = upto n s
                        ∧ (String.length s ≤ n → ellipsize n s = s)).
  { intros n s. unfold ellipsize.
    destruct (n <? String.length s) eqn:Hlen.
    - apply Nat.ltb_lt in Hlen. split; [| split].
      + rewrite length_app_string, length_upto. simpl. lia.
      + rewrite upto_app; [done |]. rewrite length_upto. lia.
      + lia.
    - apply Nat.ltb_ge in Hlen. split; [lia | done]. }
  split; [exact Hcut |]. split.
  - intros description. apply (Hcut 200 description).
  - intros [full|]; unfold philosophy_context; [| simpl; lia].
    destruct (decide (full = EmptyString)); [simpl; lia |].
    apply (Hcut (100 * 100) full).
Qed.

End Cuts.

(** ** The videos fetched *)

Section PopularVideos.
Import PySort Combined YouTube.

Variable int : string → result Z.

Lemma make_video_untagged it v :
  make_video int it = Ok v → context v = None ∧ source v = None.
Proof.
  unfold make_video. intros H.
  repeat match type of H with
         | (mbind _ ?m = Ok _) =>
             let x := fresh "x" in let e := fresh "e" in
             destruct m as [x|e]; [rewrite bind_Ok in H | discriminate H]
         end.
  injection H as <-. done.
Qed.

(** X21: the videos returned stand in descending order of their view
    count, and none carries a context or a source yet. *)
Theorem popular_videos_are_sorted search_response videos_list :
  StronglySorted (λ a b, (view_count b ≤ view_count a)%Z)
                 (get_popular_videos int search_response videos_list)
  ∧ Forall (λ v, context v = None ∧ source v = None)
           (get_popular_videos int search_response videos_list).
Proof.
  unfold get_popular_videos.
  destruct search_response as [search_items|e]; [| split; constructor].
  rewrite bind_Ok.
  destruct (mapM (field "videoId") search_items) as [video_ids|e];
    [| split; constructor].
  rewrite bind_Ok.
  destruct (videos_list (String.concat "," video_ids)) as [items|e];
    [| split; constructor].
  rewrite bind_Ok.
  destruct (mapM (make_video int) items) as [results|e] eqn:Hmake;
    [| split; constructor].
  rewrite bind_Ok. split; [apply sorted_desc_sorted |].
  rewrite sorted_desc_perm. apply mapM_Ok in Hmake.
  induction Hmake as [|it v its vs Hv _ IH]; constructor; [| done].
  by apply (make_video_untagged it).
Qed.

(** X22: the fetch is all or nothing: when the search fails, when a found
    item has no video id, when the request for the details fails, or when
    one item of the answer lacks a field or has a count that is not a
    number, the result is the empty list; otherwise it holds exactly one
    video for every item of the answer. *)
Theorem popular_videos_all_or_nothing search_response videos_list :
  ((∃ e, search_response = Raise e) →
   get_popular_videos int search_response videos_list = [])
  ∧ (∀ found, search_response = Ok found → None ∈ found →
       get_popular_videos int search_response videos_list = [])
  ∧ (∀ ids, search_response = Ok (Some <$> ids) →
       ((∃ e, videos_list (String.concat "," ids) = Raise e) →
        get_popular_videos int search_response videos_list = [])
       ∧ (∀ items, videos_list (String.concat "," ids) = Ok items →
            (Exists (λ it, ∃ e, make_video int it = Raise e) items →
             get_popular_videos int search_response videos_list = [])
            ∧ (∀ videos, Forall2 (λ it v, make_video int it = Ok v) items videos →
                 get_popular_videos int search_response videos_list ≡ₚ videos))).
Proof.
  assert (Hids : ∀ ids : list string, mapM (field "videoId") (Some <$> ids) = Ok ids).
  { intros ids. apply mapM_Ok. induction ids as [|i ids IH]; constructor; done. }
  unfold get_popular_videos. split; [| split].
  - by intros [e ->].
  - intros found -> Hnone. rewrite bind_Ok.
    destruct (mapM_Raise (field (A := string) "videoId") found) as [e ->]; [| done].
    apply Exists_exists. exists None. split; [done |]. by eexists.
  - intros ids ->. rewrite bind_Ok, Hids, bind_Ok. split.
    + by intros [e ->].
    + intros items ->. rewrite bind_Ok. split.
      * intros Hbad. by destruct (mapM_Raise (make_video int) items Hbad) as [e ->].
      * intros videos Hmade. apply mapM_Ok in Hmade. rewrite Hmade, bind_Ok.
        apply sorted_desc_perm.
Qed.

End PopularVideos.

(** ** More on the combined view *)

Section CombinedMore.
Import Combined.

Lemma set_source_set_source tag tag' d :
  set_source tag (set_source tag' d) = set_source tag d.
Proof. reflexivity. Qed.

(** The content of an object after the branch, from its content before. *)
Lemma combined_lookup weekly monthly biannual (store : gmap nat video) v :
  (combined weekly monthly biannual store).2 !! v
  = (if decide (v ∈ biannual) then set_source "Last 6 Months"
     else if decide (v ∈ monthly) then set_source "Last Month"
     else if decide (v ∈ weekly) then set_source "Last Week"
     else id) <$> store !! v.
Proof.
  rewrite combined_store, !tag_all_lookup.
  destruct (store !! v) as [d|]; [| done]. cbn [fmap option_fmap option_map].
  by destruct (decide (v ∈ biannual)), (decide (v ∈ monthly)), (decide (v ∈ weekly)).
Qed.

(** X23: the branch creates and deletes no object and writes nothing but
    the source field: an object outside the three lists is left as it is,
    and a listed one differs from what it was only by a source that is one
    of the three period labels. *)
Theorem combined_writes_only_the_source weekly monthly biannual (store : gmap nat video) v :
  let store' := (combined weekly monthly biannual store).2 in
  (store' !! v = None ↔ store !! v = None)
  ∧ (v ∉ weekly ++ monthly ++ biannual → store' !! v = store !! v)
  ∧ (∀ d', store' !! v = Some d' → v ∈ weekly ++ monthly ++ biannual →
       ∃ d tag, store !! v = Some d ∧ d' = set_source tag d
                ∧ tag ∈ ["Last Week"; "Last Month"; "Last 6 Months"]).
Proof.
  intros store'. subst store'. rewrite combined_lookup.
  split; [| split].
  - destruct (store !! v); [split; discriminate | done].
  - rewrite !not_elem_of_app. intros (Hw & Hm & Hb).
    rewrite !decide_False by done. by destruct (store !! v).
  - intros d' Hd' Hin. destruct (store !! v) as [d|]; [| done].
    injection Hd' as <-. exists d.
    destruct (decide (v ∈ biannual)); [eexists; split; [done |]; split; [done |] |].
    { apply list_elem_of_In. simpl. tauto. }
    destruct (decide (v ∈ monthly)); [eexists; split; [done |]; split; [done |] |].
    { apply list_elem_of_In. simpl. tauto. }
    destruct (decide (v ∈ weekly)); [eexists; split; [done |]; split; [done |] |].
    { apply list_elem_of_In. simpl. tauto. }
    rewrite !elem_of_app in Hin. tauto.
Qed.

Lemma firsts_all (store : gmap nat video) seen videos :
  length (ids store videos) = length videos →
  NoDup (ids store videos) →
  (∀ i, i ∈ ids store videos → i ∉ seen) →
  firsts store seen videos = videos.
Proof.
  revert seen. induction videos as [|v videos IH]; intros seen Hlen Hnd Hseen; [done |].
  rewrite firsts_cons. rewrite ids_cons in Hlen, Hnd, Hseen.
  destruct (id_of store v) as [i|].
  - cbn [length] in Hlen. apply NoDup_cons in Hnd as [Hi Hnd].
    rewrite decide_True by (apply Hseen; by left).
    f_equal. apply IH; [lia | done |].
    intros j Hj. rewrite not_elem_of_union, elem_of_singleton. split.
    + apply Hseen. by right.
    + by intros ->.
  - exfalso. cbn [length] in Hlen.
    assert (length (ids store videos) ≤ length videos); [| lia].
    clear. induction videos as [|u videos IH]; [done |].
    rewrite ids_cons. destruct (id_of store u); cbn [length]; lia.
Qed.

(** X24: when the videos of the three lists are live and no two have the
    same id, nothing is dropped: the selection is the three lists one
    after the other. *)
Theorem combined_keeps_distinct_videos weekly monthly biannual (store : gmap nat video) :
  (∀ v, v ∈ weekly ++ monthly ++ biannual → is_Some (store !! v)) →
  NoDup (ids store (weekly ++ monthly ++ biannual)) →
  (combined weekly monthly biannual store).1 = weekly ++ monthly ++ biannual.
Proof.
  intros Hlive Hnd. rewrite combined_firsts. apply firsts_all; [| done |].
  - generalize dependent (weekly ++ monthly ++ biannual). clear. intros l Hlive _.
    induction l as [|v l IH]; [done |].
    rewrite ids_cons. destruct (Hlive v) as [d Hd]; [by left |].
    unfold id_of at 1. rewrite Hd. cbn [fmap option_fmap option_map length].
    f_equal. apply IH. intros u Hu. apply Hlive. by right.
  - intros i _. apply not_elem_of_empty.
Qed.

(** X25: running the branch again, as every rerun of the script does,
    changes nothing: the same videos are selected and the store stays as
    the first run left it. *)
Theorem combined_is_idempotent weekly monthly biannual (store : gmap nat video) :
  combined weekly monthly biannual (combined weekly monthly biannual store).2
  = combined weekly monthly biannual store.
Proof.
  apply injective_projections.
  - rewrite !combined_firsts. apply firsts_ext. intros v. apply combined_id_of.
  - apply map_eq. intros v. rewrite !combined_lookup.
    destruct (store !! v) as [d|]; [| done]. cbn [fmap option_fmap option_map].
    by destruct (decide (v ∈ biannual)), (decide (v ∈ monthly)), (decide (v ∈ weekly)).
Qed.

End CombinedMore.

(** ** The session across mining and selecting *)

Section SessionFacts.
Import Combined YouTube.

Lemma alloc_spec videos (store : gmap nat video) refs store' :
  alloc videos store = (refs, store') →
  NoDup refs
  ∧ (∀ r, r ∈ refs → store !! r = None)
  ∧ (∀ r, r ∉ refs → store' !! r = store !! r)
  ∧ Forall2 (λ r v, store' !! r = Some v) refs videos.
Proof.
  revert store refs store'. induction videos as [|v videos IH]; intros store refs store' H.
  - injection H as <- <-. split; [constructor |]. split; [by intros r ?%elem_of_nil |].
    split; [done | constructor].
  - cbn [alloc] in H. set (r := fresh (dom store)) in *.
    destruct (alloc videos (<[r:=v]> store)) as [refs0 store0] eqn:Halloc.
    injection H as <- <-.
    destruct (IH _ _ _ Halloc) as (Hnd & Hnew & Hold & Hall).
    assert (Hr : store !! r = None).
    { apply not_elem_of_dom. apply is_fresh. }
    assert (Hr0 : r ∉ refs0).
    { intros Hin. apply Hnew in Hin. by rewrite lookup_insert_eq in Hin. }
    split; [by constructor |]. split; [| split].
    + intros x [->|Hx]%elem_of_cons; [done |].
      specialize (Hnew x Hx). destruct (decide (r = x)) as [<-|Hne]; [done |].
      by rewrite lookup_insert_ne in Hnew.
    + intros x [Hne Hx]%not_elem_of_cons. rewrite (Hold x Hx).
      by rewrite lookup_insert_ne.
    + constructor; [| done]. rewrite (Hold r Hr0). apply lookup_insert_eq.
Qed.

Lemma foldl_alter_lookup (f : video → video) refs (store : gmap nat video) v :
  (∀ d, f (f d) = f d) →
  foldl (λ store v, alter f v store) store refs !! v
  = (if decide (v ∈ refs) then f else id) <$> store !! v.
Proof.
  intros Hf. revert store. induction refs as [|u refs IH]; intros store.
  - cbn [foldl]. destruct (decide (v ∈ [])) as [Hin|_]; [by apply elem_of_nil in Hin |].
    by destruct (store !! v).
  - cbn [foldl]. rewrite IH, lookup_alter.
    destruct (decide (v ∈ u :: refs)) as [Hin'|Hnin'];
      destruct (decide (v ∈ refs)) as [Hin|Hnin];
      destruct (decide (u = v)) as [->|Hne];
      rewrite ?elem_of_cons in *;
      try (destruct (store !! v); cbn [fmap option_fmap option_map]; by rewrite ?Hf);
      try (exfalso; tauto).
    exfalso. destruct Hin' as [->|?]; done.
Qed.

Lemma add_context_idem d : add_context (add_context d) = add_context d.
Proof. reflexivity. Qed.

Lemma listed_period p s : listed s ≡ₚ period_list p s ++ other_lists p s.
Proof.
  unfold listed, period_list, other_lists. destruct p.
  - done.
  - rewrite !app_assoc. f_equiv. apply Permutation_app_comm.
  - rewrite (Permutation_app_comm (default [] (biannual_videos s))). by rewrite app_assoc.
Qed.

Lemma listed_set_period p refs s :
  listed (set_period p refs s) ≡ₚ refs ++ other_lists p s.
Proof.
  rewrite (listed_period p). by destruct p.
Qed.

Lemma mine_sound p videos state : session_sound state → session_sound (mine p videos state).
Proof.
  intros [Hnd Hctx]. unfold mine. destruct videos as [|v0 videos0]; [done |].
  set (videos := v0 :: videos0) in *. clearbody videos.
  destruct (alloc videos state.2) as [refs store1] eqn:Halloc.
  destruct (alloc_spec _ _ _ _ Halloc) as (Hrefs & Hnew & Hold & Hall).
  rewrite (listed_period p) in Hnd.
  apply NoDup_app in Hnd as (_ & _ & Hothers).
  assert (Hother_live : ∀ v, v ∈ other_lists p state.1 → v ∉ refs).
  { intros v Hv Hin. destruct (Hctx v) as (d & Hd & _).
    - rewrite (listed_period p). apply elem_of_app. by right.
    - by rewrite (Hnew v Hin) in Hd. }
  split; cbn [fst snd].
  - rewrite listed_set_period. apply NoDup_app. split; [done |]. split; [| done].
    intros v Hv Hv'. by apply (Hother_live v).
  - intros v Hv. rewrite listed_set_period in Hv.
    rewrite (foldl_alter_lookup add_context refs store1 v add_context_idem).
    apply elem_of_app in Hv as [Hv | Hv].
    + rewrite decide_True by done.
      apply list_elem_of_lookup in Hv as [i Hi].
      destruct (Forall2_lookup_l _ _ _ _ _ Hall Hi) as (d & _ & Hd).
      rewrite Hd. by exists (add_context d).
    + rewrite decide_False by (by apply Hother_live).
      rewrite (Hold v) by (by apply Hother_live).
      destruct (Hctx v) as (d & Hd & Hc).
      { rewrite (listed_period p). apply elem_of_app. by right. }
      rewrite Hd. by exists d.
Qed.

Lemma select_store data_source (state : session * gmap nat video) v :
  ∃ f : video → video,
    (select data_source state).2 !! v = f <$> state.2 !! v
    ∧ ∀ d, title (f d) = title d ∧ description (f d) = description d
           ∧ context (f d) = context d.
Proof.
  unfold select. destruct state as [s store]. cbn [snd].
  assert (Hid : ∃ f : video → video,
            store !! v = f <$> store !! v
            ∧ ∀ d, title (f d) = title d ∧ description (f d) = description d
                   ∧ context (f d) = context d).
  { exists id. split; [by destruct (store !! v) | done]. }
  do 3 (destruct (decide _); [exact Hid |]).
  destruct (decide _); [| exact Hid].
  eexists. split; [apply combined_lookup |].
  intros d. by repeat destruct (decide _).
Qed.

Lemma run_event_sound state e : session_sound state → session_sound (run_event state e).
Proof.
  destruct e as [p videos | data_source]; [apply mine_sound |].
  intros [Hnd Hctx]. split; [done |]. cbn [run_event fst snd].
  intros v Hv. destruct (Hctx v Hv) as (d & Hd & Hc).
  destruct (select_store data_source state v) as (f & -> & Hf).
  rewrite Hd. exists (f d). split; [done |].
  destruct (Hf d) as (-> & -> & ->). done.
Qed.

Lemma run_sound events : session_sound (run events).
Proof.
  unfold run.
  assert (Hinit : session_sound (Session None None None, ∅)).
  { split; [constructor | by intros v ?%elem_of_nil]. }
  revert Hinit. generalize (Session None None None, (∅ : gmap nat video)).
  induction events as [|e events IH]; intros state Hstate; [done |].
  cbn [foldl]. apply IH. by apply run_event_sound.
Qed.

(** X26: whatever the user mines and selects, in any order and any number
    of times, the three lists of the session hold live objects and share
    none, and every listed video carries the label that the classifier
    gives to its own title and description. In particular no object is
    ever in two period lists, so the tagging of the combined view cannot
    overwrite the label of an earlier period. *)
Theorem session_stays_sound (events : list event) :
  session_sound (run events)
  ∧ (∀ v, v ∈ default [] (weekly_videos (run events).1) →
          (v ∉ default [] (monthly_videos (run events).1))
          ∧ (v ∉ default [] (biannual_videos (run events).1)))
  ∧ (∀ v, v ∈ default [] (monthly_videos (run events).1) →
          v ∉ default [] (biannual_videos (run events).1)).
Proof.
  pose proof (run_sound events) as Hsound. split; [done |].
  destruct Hsound as [Hnd _]. unfold listed in Hnd.
  apply NoDup_app in Hnd as (_ & Hw & Hnd).
  apply NoDup_app in Hnd as (_ & Hm & _).
  split.
  - intros v Hv. specialize (Hw v Hv). rewrite not_elem_of_app in Hw. tauto.
  - intros v Hv. by apply Hm.
Qed.

(** X27: every video that the second tab selects, for a single period or
    for all of them combined, is a live object with a context, so the
    prompt of the lecture themes can always read [video['context']]. *)
Theorem selected_videos_have_a_context (events : list event) (data_source : string) v :
  v ∈ (select data_source (run events)).1 →
  ∃ d, (select data_source (run events)).2 !! v = Some d
       ∧ context d
         = Some (VideoContext.generate_video_context (title d) (description d))
       ∧ ∃ line, title_line d = Ok line.
Proof.
  intros Hv. destruct (run_sound events) as [_ Hctx].
  assert (Hlisted : v ∈ listed (run events).1).
  { revert Hv. unfold select, listed. destruct (run events) as [s store]. cbn [fst].
    do 3 (destruct (decide _); [cbn [fst]; rewrite !elem_of_app; tauto |]).
    destruct (decide _); [| by intros ?%elem_of_nil].
    rewrite combined_firsts. intros [Hv _]%elem_of_firsts. done. }
  destruct (Hctx v Hlisted) as (d & Hd & Hc).
  destruct (select_store data_source (run events) v) as (f & Hf & Hkeep).
  rewrite Hf, Hd. exists (f d). destruct (Hkeep d) as (Ht & Hdesc & Hcf).
  split; [done |]. split; [by rewrite Hcf, Ht, Hdesc |].
  unfold title_line. rewrite Hcf, Hc. by eexists.
Qed.

End SessionFacts.

(** ** The lecture themes *)

Section LectureThemes.
Import Combined YouTube.

Variable configure : string → result unit.
Variable generate_content : string → result string.

Lemma mapM_Raise_same {A B} (f : A → result B) (e0 : exn) l e :
  (∀ x e, f x = Raise e → e = e0) → mapM f l = Raise e → e = e0.
Proof.
  intros Hf. induction l as [|x l IH]; [done |].
  rewrite mapM_cons. destruct (f x) as [y|e'] eqn:Hx.
  - rewrite bind_Ok. destruct (mapM f l) as [k|e'']; [done |].
    intros [= <-]. by apply IH.
  - intros [= <-]. by apply (Hf x).
Qed.

Lemma title_line_Raise v e :
  title_line v = Raise e → e = Exn "KeyError" "'context'".
Proof. unfold title_line. destruct (context v); [done |]. by intros [= <-]. Qed.

(** X28: [generate_lecture_themes] turns every failure into a text and
    never raises: a failing configuration or backend gives "Error
    generating lecture themes: " followed by the message of the exception,
    and a video without a context gives that text with the quoted key,
    without the backend being asked; with a context on every video the
    result is the text of the backend or the error text for its failure. *)
Theorem lecture_themes_report_failures cleaned api_key video_data age_group :
  (∀ e, configure api_key = Raise e →
        generate_lecture_themes configure generate_content cleaned api_key
          video_data age_group
        = "Error generating lecture themes: " +:+ exn_message e)
  ∧ (configure api_key = Ok () →
     Exists (λ v, context v = None) video_data →
     generate_lecture_themes configure generate_content cleaned api_key
       video_data age_group
     = "Error generating lecture themes: 'context'")
  ∧ (configure api_key = Ok () →
     Forall (λ v, is_Some (context v)) video_data →
     ∃ prompt,
       generate_lecture_themes configure generate_content cleaned api_key
         video_data age_group
       = match generate_content prompt with
         | Ok text => text
         | Raise e => "Error generating lecture themes: " +:+ exn_message e
         end).
Proof.
  unfold generate_lecture_themes. split; [| split].
  - by intros e ->.
  - intros -> Hbad. rewrite bind_Ok.
    destruct (mapM_Raise title_line video_data) as [e He].
    { eapply Exists_impl; [exact Hbad |]. intros v Hv. unfold title_line.
      rewrite Hv. by eexists. }
    rewrite He.
    by rewrite (mapM_Raise_same title_line _ video_data e title_line_Raise He).
  - intros -> Hall. rewrite bind_Ok.
    destruct (mapM_total title_line video_data) as [lines ->].
    { eapply Forall_impl; [exact Hall |]. intros v [c Hc]. unfold title_line.
      rewrite Hc. by eexists. }
    rewrite bind_Ok. by eexists.
Qed.

End LectureThemes.

(** ** Concrete cases *)

Section MoreCases.
Import PyStr PyDict ThemesTracker Main Combined YouTube Samples MoreSamples.

Lemma empty_frame_is_handled_witness :
  rows no_posts = [] ∧ full_text no_posts = None
  ∧ extract_themes sample_tokenize sample_lemmatize sample_stop_words no_posts
    = (no_posts, ([], []))
  ∧ analyze_sentiment sample_polarity
      (extract_themes sample_tokenize sample_lemmatize sample_stop_words no_posts).1 = [].
Proof.
  split; [reflexivity |]. split; [reflexivity |].
  destruct (empty_frame_is_handled sample_tokenize sample_lemmatize sample_stop_words
              sample_polarity no_posts eq_refl eq_refl) as (H1 & H2 & _).
  split; [exact H1 | exact H2].
Defined.

Lemma one_score_per_post_witness :
  full_text fetched_posts = None
  ∧ length (analyze_sentiment sample_polarity
              (extract_themes sample_tokenize sample_lemmatize sample_stop_words
                 fetched_posts).1) = 2.
Proof.
  split; [reflexivity |].
  apply (one_score_per_post sample_tokenize sample_lemmatize sample_stop_words
           sample_polarity fetched_posts eq_refl).
Defined.

Lemma sample_polarity_range s q : sample_polarity s = Ok q → is_polarity q.
Proof.
  unfold sample_polarity. repeat destruct (decide _); intros [= <-];
    split; by vm_compute.
Qed.

Lemma sentiment_stays_in_range_witness :
  (∀ s q, sample_polarity s = Ok q → is_polarity q)
  ∧ Forall is_polarity (analyze_sentiment sample_polarity two_posts).
Proof.
  split; [exact sample_polarity_range |].
  apply (sentiment_stays_in_range sample_polarity two_posts sample_polarity_range).
Defined.

Lemma failed_scoring_is_shown_negative_witness :
  Exists (λ p, ∃ e, sample_polarity (full_text_of p) = Raise e) (rows two_posts)
  ∧ ∃ r q,
      analyze_subreddit sample_tokenize sample_lemmatize sample_stop_words
        sample_polarity two_posts = Some r
      ∧ sentiment r = Float q ∧ (q == 0)%Q
      ∧ sentiment_label (sentiment r) = "Negative".
Proof.
  assert (H : Exists (λ p, ∃ e, sample_polarity (full_text_of p) = Raise e)
                (rows two_posts)).
  { apply Exists_cons_tl, Exists_cons_hd. eexists. reflexivity. }
  split; [exact H |].
  apply (failed_scoring_is_shown_negative sample_tokenize sample_lemmatize
           sample_stop_words sample_polarity two_posts H).
Defined.

Lemma normalizer_is_all_or_nothing_witness :
  sample_tokenize (lower "Finding growth") = Ok ["finding"; "growth"]
  ∧ Exists (λ t, keep_token sample_stop_words t = true
                 ∧ ∃ e, failing_lemmatize t = Raise e) ["finding"; "growth"]
  ∧ preprocess_text sample_tokenize failing_lemmatize sample_stop_words
      (PyStr "Finding growth") = [].
Proof.
  assert (H : Exists (λ t, keep_token sample_stop_words t = true
                           ∧ ∃ e, failing_lemmatize t = Raise e) ["finding"; "growth"]).
  { apply Exists_cons_tl, Exists_cons_hd. split; [by vm_compute | eexists; reflexivity]. }
  split; [reflexivity |]. split; [exact H |].
  apply (proj1 (proj2 (normalizer_is_all_or_nothing sample_tokenize failing_lemmatize
                         sample_stop_words (PyStr "Finding growth")))
           ["finding"; "growth"] eq_refl H).
Defined.

Lemma display_shows_the_most_frequent_witness :
  ("people", 5) ∈ top_words many_words
  ∧ ("work", 1) ∈ word_freq many_words
  ∧ (("work", 1) ∉ top_words many_words)
  ∧ 1 ≤ 5.
Proof.
  assert (H1 : ("people", 5) ∈ top_words many_words).
  { apply list_elem_of_In. vm_compute. tauto. }
  assert (H2 : ("work", 1) ∈ word_freq many_words).
  { apply list_elem_of_In. vm_compute. tauto. }
  assert (H3 : ("work", 1) ∉ top_words many_words).
  { intros H%list_elem_of_In. vm_compute in H.
    repeat (destruct H as [H|H]; [discriminate H |]). exact H. }
  split; [exact H1 |]. split; [exact H2 |]. split; [exact H3 |].
  apply (proj2 (proj2 (proj2 (proj1 (display_shows_the_most_frequent many_words))))
           ("people", 5) ("work", 1) H1 H2 H3).
Defined.

Lemma titles_come_from_the_first_source_witness :
  5 ≤ length (keys (word_freq (five_words (Float 1))))
  ∧ 3 ≤ length (keys (bigram_freq (five_words (Float 1))))
  ∧ generate_titles [("Existentialism", five_words (Float 1)); ("LifePurpose", many_words)]
    = generate_titles [("Existentialism", five_words (Float 1))].
Proof.
  assert (Hw : 5 ≤ length (keys (word_freq (five_words (Float 1))))) by (vm_compute; lia).
  assert (Hb : 3 ≤ length (keys (bigram_freq (five_words (Float 1))))) by (vm_compute; lia).
  split; [exact Hw |]. split; [exact Hb |].
  apply (titles_come_from_the_first_source "Existentialism" (five_words (Float 1))
           [("LifePurpose", many_words)] Hw Hb).
Defined.

Lemma each_source_is_analysed_on_its_own_witness :
  NoDup [("Existentialism", fetched_posts); ("LifePurpose", no_posts)].*1
  ∧ get (analyze_all sample_tokenize sample_lemmatize sample_stop_words sample_polarity
           [("Existentialism", fetched_posts); ("LifePurpose", no_posts)]) "Existentialism"
    = analyze_subreddit sample_tokenize sample_lemmatize sample_stop_words sample_polarity
        fetched_posts.
Proof.
  assert (Hnd : NoDup [("Existentialism", fetched_posts); ("LifePurpose", no_posts)].*1).
  { apply NoDup_cons. split; [| apply NoDup_singleton].
    intros H%list_elem_of_singleton. discriminate H. }
  split; [exact Hnd |].
  apply (proj2 (proj2 (each_source_is_analysed_on_its_own sample_tokenize sample_lemmatize
                         sample_stop_words sample_polarity
                         [("Existentialism", fetched_posts); ("LifePurpose", no_posts)]))
           Hnd "Existentialism" fetched_posts).
  by left.
Defined.

Lemma failed_fetch_contributes_nothing_witness :
  (∃ e, sample_top "LifePurpose" "week" = Raise e)
  ∧ "LifePurpose" ∉ keys (all_results sample_tokenize sample_lemmatize sample_stop_words
                            sample_polarity sample_top
                            ["Existentialism"; "LifePurpose"] "week").
Proof.
  split; [eexists; reflexivity |].
  apply (proj1 (failed_fetch_contributes_nothing sample_tokenize sample_lemmatize
                  sample_stop_words sample_polarity sample_top
                  ["Existentialism"; "LifePurpose"] "week")
           "LifePurpose" (Exn "ResponseException" "received 401 HTTP response")).
  reflexivity.
Defined.

Lemma context_depends_on_concatenation_witness :
  lower ("The Ta" +:+ upto 200 "output") = lower ("the taoutput" +:+ upto 200 EmptyString)
  ∧ VideoContext.generate_video_context "The Ta" "output"
    = VideoContext.generate_video_context "the taoutput" EmptyString.
Proof.
  split; [reflexivity |].
  apply (context_depends_on_concatenation "The Ta" "output" "the taoutput" EmptyString).
  reflexivity.
Defined.

Lemma meditation_wins_witness :
  contains "meditation" (lower "Zen Meditation and Yoga") = true
  ∧ VideoContext.generate_video_context "Zen Meditation and Yoga" "bible study"
    = "Meditation/Mindfulness practice".
Proof.
  split; [reflexivity |].
  apply (meditation_wins "Zen Meditation and Yoga" "bible study" "meditation").
  - by left.
  - left. reflexivity.
Defined.

Lemma cut_text_is_bounded_witness :
  String.length "short" ≤ 200 ∧ ellipsize 200 "short" = "short".
Proof.
  assert (H : String.length "short" ≤ 200) by (vm_compute; lia).
  split; [exact H |].
  apply (proj2 (proj2 (proj1 cut_text_is_bounded 200 "short")) H).
Defined.

Lemma popular_videos_all_or_nothing_witness :
  sample_videos_list (String.concat "," ["v3"]) = Ok [an_item_without_title "v3"]
  ∧ Exists (λ it, ∃ e, make_video sample_int it = Raise e) [an_item_without_title "v3"]
  ∧ get_popular_videos sample_int (Ok (Some <$> ["v3"])) sample_videos_list = [].
Proof.
  assert (H : Exists (λ it, ∃ e, make_video sample_int it = Raise e)
                [an_item_without_title "v3"]).
  { apply Exists_cons_hd. eexists. reflexivity. }
  split; [reflexivity |]. split; [exact H |].
  apply (proj1 (proj2 (proj2 (proj2 (popular_videos_all_or_nothing sample_int
                  (Ok (Some <$> ["v3"])) sample_videos_list)) ["v3"] eq_refl)
                  [an_item_without_title "v3"] eq_refl) H).
Defined.

Lemma combined_writes_only_the_source_witness :
  (3 ∉ [0] ++ [1; 2] ++ @nil nat)
  ∧ (combined [0] [1; 2] [] (<[3 := a_video "v9"]> three_videos)).2 !! 3
    = <[3 := a_video "v9"]> three_videos !! 3.
Proof.
  assert (H : 3 ∉ [0] ++ [1; 2] ++ @nil nat).
  { intros H%list_elem_of_In. simpl in H. repeat (destruct H as [H|H]; [discriminate H |]).
    exact H. }
  split; [exact H |].
  apply (proj1 (proj2 (combined_writes_only_the_source [0] [1; 2] []
                         (<[3 := a_video "v9"]> three_videos) 3)) H).
Defined.

Lemma combined_keeps_distinct_videos_witness :
  (∀ v, v ∈ [0] ++ [2] ++ @nil nat → is_Some (three_videos !! v))
  ∧ NoDup (ids three_videos ([0] ++ [2] ++ []))
  ∧ (combined [0] [2] [] three_videos).1 = [0] ++ [2] ++ [].
Proof.
  assert (H1 : ∀ v, v ∈ [0] ++ [2] ++ @nil nat → is_Some (three_videos !! v)).
  { intros v [->|[->|H%elem_of_nil]%elem_of_cons]%elem_of_cons; [| | done];
      by eexists. }
  assert (H2 : NoDup (ids three_videos ([0] ++ [2] ++ []))).
  { vm_compute. apply NoDup_cons. split; [| apply NoDup_singleton].
    intros H%list_elem_of_singleton. discriminate H. }
  split; [exact H1 |]. split; [exact H2 |].
  apply (combined_keeps_distinct_videos [0] [2] [] three_videos H1 H2).
Defined.

Lemma session_stays_sound_witness :
  1 ∈ default [] (monthly_videos (run sample_events).1)
  ∧ 1 ∉ default [] (biannual_videos (run sample_events).1).
Proof.
  assert (H : 1 ∈ default [] (monthly_videos (run sample_events).1)).
  { apply list_elem_of_In. vm_compute. tauto. }
  split; [exact H |].
  apply (proj2 (proj2 (session_stays_sound sample_events)) 1 H).
Defined.

Lemma selected_videos_have_a_context_witness :
  3 ∈ (select "Combined (All Time Periods)" (run sample_events)).1
  ∧ ∃ d, (select "Combined (All Time Periods)" (run sample_events)).2 !! 3 = Some d
         ∧ context d
           = Some (VideoContext.generate_video_context (title d) (description d)).
Proof.
  assert (H : 3 ∈ (select "Combined (All Time Periods)" (run sample_events)).1).
  { apply list_elem_of_In. vm_compute. tauto. }
  split; [exact H |].
  destruct (selected_videos_have_a_context sample_events
              "Combined (All Time Periods)" 3 H) as (d & Hd & Hc & _).
  by exists d.
Defined.

Lemma lecture_themes_report_failures_witness :
  sample_configure "key" = Ok ()
  ∧ Exists (λ v, context v = None) [a_fetched_video "v1" "Zen talk"]
  ∧ generate_lecture_themes sample_configure sample_generate_content None "key"
      [a_fetched_video "v1" "Zen talk"] "20-30"
    = "Error generating lecture themes: 'context'".
Proof.
  assert (H : Exists (λ v, context v = None) [a_fetched_video "v1" "Zen talk"]).
  { by apply Exists_cons_hd. }
  split; [reflexivity |]. split; [exact H |].
  apply (proj1 (proj2 (lecture_themes_report_failures sample_configure
                         sample_generate_content None "key"
                         [a_fetched_video "v1" "Zen talk"] "20-30")) eq_refl H).
Defined.

End MoreCases.
